(** * 365tunebot: the chat controller of [react-chart-app/src/components/ChatBot.js]

    A shallow embedding of the conversational response controller: the query
    classifier, the artifact predicate, the suggestion generator, the two
    progressive renderers ([TypewriterText], [AnimatedTable]), the CSV export,
    the [localStorage] persistence helpers and the [ChatBot] component itself,
    whose event handlers and timers are given as a labelled transition
    function over an explicit clock. *)

From Stdlib Require Import List String Ascii ZArith Lia Bool Arith Sorted.
From stdpp Require Import gmap strings.
Import ListNotations.

Set Default Proof Using "Type".

(** ** JavaScript strings

    A JavaScript string is a sequence of 16-bit code units.  The model keeps
    the code units below 256 (Latin-1 text), one [ascii] per code unit; on
    that range [toLowerCase], [trim], [includes], [slice] and the two
    [replace] calls of the source are the functions below. *)

Module JsString.

Definition jsstring := list ascii.

Definition js (s : string) : jsstring := list_ascii_of_string s.

(** [String.prototype.toLowerCase] on one code unit below 256: [A-Z] and the
    Latin-1 capitals U+00C0..U+00DE (U+00D7, the multiplication sign, apart)
    move up by 32; every other unit is unchanged. *)
Definition lowerUnit (c : ascii) : ascii :=
  let n := nat_of_ascii c in
  if ((65 <=? n) && (n <=? 90)) || ((192 <=? n) && (n <=? 222) && negb (n =? 215))
  then ascii_of_nat (n + 32)
  else c.

Definition toLowerCase (s : jsstring) : jsstring := List.map lowerUnit s.

Fixpoint startsWith (s p : jsstring) {struct p} : bool :=
  match p, s with
  | [], _ => true
  | _ :: _, [] => false
  | a :: p', b :: s' => Ascii.eqb a b && startsWith s' p'
  end.

(** [s.includes(p)]: [p] occurs in [s] at some position. *)
Fixpoint includes (s p : jsstring) : bool :=
  startsWith s p ||
  match s with
  | [] => false
  | _ :: s' => includes s' p
  end.

(** [Array.prototype.some]. *)
Definition some {A} (f : A -> bool) (l : list A) : bool := existsb f l.

(** White space of [String.prototype.trim] among the code units below 256:
    TAB, LF, VT, FF, CR, SPACE and NO-BREAK SPACE. *)
Definition isWhiteSpace (c : ascii) : bool :=
  let n := nat_of_ascii c in
  ((9 <=? n) && (n <=? 13)) || (n =? 32) || (n =? 160).

Fixpoint trimStart (s : jsstring) : jsstring :=
  match s with
  | [] => []
  | c :: s' => if isWhiteSpace c then trimStart s' else s
  end.

Definition trimEnd (s : jsstring) : jsstring := rev (trimStart (rev s)).

Definition trim (s : jsstring) : jsstring := trimEnd (trimStart s).

Definition isEmpty (s : jsstring) : bool :=
  match s with [] => true | _ => false end.

(** [s.slice(0, n)]. *)
Definition slice0 (s : jsstring) (n : nat) : jsstring := firstn n s.

(** [l.join(sep)]. *)
Fixpoint join (sep : jsstring) (l : list jsstring) : jsstring :=
  match l with
  | [] => []
  | [x] => x
  | x :: rest => x ++ sep ++ join sep rest
  end.

(** Decimal digits of a natural number, most significant first. *)
Fixpoint digits (fuel n : nat) (acc : jsstring) : jsstring :=
  match fuel with
  | O => acc
  | S fuel' =>
      let acc' := ascii_of_nat (48 + n mod 10) :: acc in
      if n / 10 =? 0 then acc' else digits fuel' (n / 10) acc'
  end.

(** [String(n)] for an integer [n]. *)
Definition stringOfZ (z : Z) : jsstring :=
  let n := Z.to_nat (Z.abs z) in
  let d := digits (S n) n [] in
  if (z <? 0)%Z then "-"%char :: d else d.

(** The relation the boolean tests decide: [p] is a substring of [s]. *)
Definition occursIn (p s : jsstring) : Prop :=
  exists pre post, s = pre ++ p ++ post.

Definition whiteOnly (s : jsstring) : Prop :=
  Forall (fun c => isWhiteSpace c = true) s.

End JsString.

Import JsString.

(** ** Query classification, artifact predicate and suggestions *)

Inductive Behavior : Set :=
| NoSidebar     (* 'no-sidebar' *)
| BriefShow     (* 'brief-show' *)
| ShowSidebar   (* 'show-sidebar' *)
| AutoDecide.   (* 'auto-decide' *)

Definition Behavior_eqb (a b : Behavior) : bool :=
  match a, b with
  | NoSidebar, NoSidebar | BriefShow, BriefShow
  | ShowSidebar, ShowSidebar | AutoDecide, AutoDecide => true
  | _, _ => false
  end.

Definition simpleQueries : list jsstring :=
  List.map js
    ["how many"; "count of"; "total number"; "do we have"; "is there";
     "are there"; "what is the count"; "how much total"; "what percentage"]%string.

Definition briefShowQueries : list jsstring :=
  List.map js
    ["who is"; "which department has the most"; "which country has the most";
     "top department"; "highest"; "lowest"; "most expensive"; "cheapest"]%string.

Definition detailedQueries : list jsstring :=
  List.map js
    ["show me"; "list"; "display"; "find users"; "breakdown"; "analysis";
     "by department"; "by country"; "activity"; "trends"; "details"]%string.

Definition classifyQuery (userQuery : jsstring) : Behavior :=
  let query := toLowerCase userQuery in
  if some (fun phrase => includes query phrase) simpleQueries then NoSidebar
  else if some (fun phrase => includes query phrase) briefShowQueries then BriefShow
  else if some (fun phrase => includes query phrase) detailedQueries then ShowSidebar
  else AutoDecide.

Definition artifactKeywords : list jsstring :=
  List.map js
    ["export"; "download"; "csv"; "excel"; "report"; "full list"; "complete data"]%string.

(** [results] is always an array at the only call site
    ([response.data.results || []]), so [results && results.length > 50] is
    the length test. *)
Definition shouldShowArtifact {Row} (userQuery : jsstring) (results : list Row) : bool :=
  let query := toLowerCase userQuery in
  some (fun keyword => includes query keyword) artifactKeywords ||
  (50 <? length results).

Definition indiaSuggestions : list jsstring :=
  List.map js
    ["Show me users from other countries";
     "What departments do India users work in?";
     "How many active users are there in total?"]%string.

Definition departmentSuggestions : list jsstring :=
  List.map js
    ["Which department has the most users?";
     "Show me user activity by department";
     "What licenses do IT department users have?"]%string.

Definition licenseSuggestions : list jsstring :=
  List.map js
    ["Show me license utilization rates";
     "Which licenses are most expensive?";
     "How many unlicensed users do we have?"]%string.

Definition countrySuggestions : list jsstring :=
  List.map js
    ["Show me user distribution by country";
     "Which country has the most active users?";
     "What's the average activity per country?"]%string.

Definition activeSuggestions : list jsstring :=
  List.map js
    ["Show me inactive users";
     "What makes a user active vs inactive?";
     "Show me user activity trends"]%string.

Definition defaultSuggestions : list jsstring :=
  List.map js
    ["How many users do we have by country?";
     "Show me license costs by department";
     "Which users haven't signed in recently?"]%string.

Definition generateSuggestions (userQuery : jsstring) (hasResults : bool) : list jsstring :=
  let query := toLowerCase userQuery in
  if includes query (js "user") && includes query (js "india") then indiaSuggestions
  else if includes query (js "department") then departmentSuggestions
  else if includes query (js "license") then licenseSuggestions
  else if includes query (js "country") || includes query (js "countries") then countrySuggestions
  else if includes query (js "active") then activeSuggestions
  else defaultSuggestions.


(** ** The progressive text renderer: [TypewriterText]

    The component keeps [displayText], [currentIndex] and the handle of its
    interval ([intervalRef]).  A running interval is recorded by the time of
    its next tick; [None] is the cleared handle. *)

Module TypewriterText.

Record t : Type := mk {
  displayText : jsstring;
  currentIndex : nat;
  intervalRef : option Z
}.

(** The [speed] prop; [ChatBot] passes 20, which is also the default. *)
Definition speed : Z := 20.

(** The effect on [text]: nothing at all for a falsy (empty) text,
    otherwise both states are reset and the interval is started. *)
Definition mount (now : Z) (text : jsstring) : t :=
  if isEmpty text
  then mk [] 0 None
  else mk [] 0 (Some (now + speed)%Z).

(** One run of the interval callback.  The boolean tells whether
    [onCompleteRef.current()] was called. *)
Definition tick (text : jsstring) (c : t) : t * bool :=
  match intervalRef c with
  | None => (c, false)
  | Some due =>
      if currentIndex c <? length text
      then (mk (slice0 text (currentIndex c + 1)) (currentIndex c + 1)
               (Some (due + speed)%Z), false)
      else (mk (displayText c) (currentIndex c) None, true)
  end.

(** The component left alone: the interval callback runs as long as the
    interval is set.  The result lists the values [setDisplayText] was given,
    counts the calls of the completion callback and gives the last state. *)
Fixpoint run (fuel : nat) (text : jsstring) (c : t) : list jsstring * nat * t :=
  match fuel with
  | O => ([], 0, c)
  | S fuel' =>
      match intervalRef c with
      | None => ([], 0, c)
      | Some _ =>
          let (c', completed) := tick text c in
          let '(shown, calls, final) := run fuel' text c' in
          if completed then (shown, S calls, final)
          else (displayText c' :: shown, calls, final)
      end
  end.

Definition reveal (fuel : nat) (now : Z) (text : jsstring) : list jsstring * nat * t :=
  run fuel text (mount now text).

End TypewriterText.

(** ** Result rows and the CSV export of [ArtifactView] *)

Module Csv.

(** A number as the export sees it: whether it is falsy (zero) and the text
    [String] gives for it, which is the engine's and not this program's
    (decimal digits, a fraction, exponent notation from 1e21 on). *)
Record Number : Type := mkNumber {
  isZero : bool;
  numberText : jsstring
}.

(** A value met in a result row: what [JSON.parse] delivers (null, booleans,
    numbers, strings, arrays, objects with their own properties in the order
    [Object.keys] lists them), and the functions a row inherits from its
    prototype, given by the text [String] shows for them. *)
Unset Elimination Schemes.
Inductive Value : Type :=
| VNull
| VBool (b : bool)
| VNum (n : Number)
| VStr (s : jsstring)
| VArray (items : list Value)
| VObject (fields : list (jsstring * Value))
| VFunction (text : jsstring).
Set Elimination Schemes.

(** A row object, as the backend's interface has the rows: its own
    properties, each name once, in the order of their creation. *)
Definition Row : Type := list (jsstring * Value).

(** [a === b] on strings. *)
Fixpoint jsstring_eqb (a b : jsstring) : bool :=
  match a, b with
  | [], [] => true
  | x :: a', y :: b' => Ascii.eqb x y && jsstring_eqb a' b'
  | _, _ => false
  end.

(** The own property of [row] named [col], if it has one. *)
Fixpoint own (row : Row) (col : jsstring) : option Value :=
  match row with
  | [] => None
  | (k, v) :: rest => if jsstring_eqb k col then Some v else own rest col
  end.

Definition isDigit (c : ascii) : bool :=
  let n := nat_of_ascii c in (48 <=? n) && (n <=? 57).

Fixpoint numeral (s : jsstring) (acc : N) : option N :=
  match s with
  | [] => Some acc
  | c :: rest =>
      if isDigit c
      then numeral rest (10 * acc + (N_of_ascii c - 48))%N
      else None
  end.

(** The array index a property name stands for: a decimal numeral without a
    leading zero, of value at most 2^32 - 2. *)
Definition arrayIndex (k : jsstring) : option N :=
  match k with
  | [] => None
  | c :: rest =>
      if Ascii.eqb c "0"%char
      then (if isEmpty rest then Some 0%N else None)
      else match numeral k 0 with
           | Some n => if (n <=? 4294967294)%N then Some n else None
           | None => None
           end
  end.

Fixpoint insertIndex (i : N) (k : jsstring) (l : list (N * jsstring))
    : list (N * jsstring) :=
  match l with
  | [] => [(i, k)]
  | (j, k') :: rest =>
      if (i <? j)%N then (i, k) :: l else (j, k') :: insertIndex i k rest
  end.

(** The own keys that are array indices, in ascending order of the index. *)
Fixpoint indexKeys (row : Row) : list (N * jsstring) :=
  match row with
  | [] => []
  | (k, _) :: rest =>
      match arrayIndex k with
      | Some i => insertIndex i k (indexKeys rest)
      | None => indexKeys rest
      end
  end.

(** The other own keys, in the order of their creation. *)
Fixpoint nameKeys (row : Row) : list jsstring :=
  match row with
  | [] => []
  | (k, _) :: rest =>
      match arrayIndex k with
      | Some _ => nameKeys rest
      | None => k :: nameKeys rest
      end
  end.

(** [Object.keys(row)]: the array indices first, ascending, then the other
    keys as they were created. *)
Definition keys (row : Row) : list jsstring :=
  List.map snd (indexKeys row) ++ nameKeys row.

Definition truthy (v : Value) : bool :=
  match v with
  | VNull => false
  | VBool b => b
  | VNum n => negb (isZero n)
  | VStr s => negb (isEmpty s)
  | VArray _ | VObject _ | VFunction _ => true
  end.

Definition quote : ascii := "034"%char.
Definition comma : ascii := ","%char.
Definition newline : ascii := "010"%char.
Definition underscore : ascii := "_"%char.

(** [l.map(f)] where [f] may throw: [None] as soon as one call throws. *)
Fixpoint traverse {A B} (f : A -> option B) (l : list A) : option (list B) :=
  match l with
  | [] => Some []
  | x :: rest =>
      match f x with
      | Some y =>
          match traverse f rest with
          | Some ys => Some (y :: ys)
          | None => None
          end
      | None => None
      end
  end.

(** [String(v)]; [None] when it throws.  An array is its items joined by
    commas, a null item giving the empty text; an object is
    [[object Object]] unless it has an own property [toString], which after
    [JSON.parse] is no function: the conversion then throws a [TypeError]. *)
Fixpoint toString (v : Value) : option jsstring :=
  match v with
  | VNull => Some (js "null")
  | VBool true => Some (js "true")
  | VBool false => Some (js "false")
  | VNum n => Some (numberText n)
  | VStr s => Some s
  | VArray items =>
      let fix texts (l : list Value) : option (list jsstring) :=
        match l with
        | [] => Some []
        | x :: rest =>
            match (match x with VNull => Some [] | _ => toString x end) with
            | Some t =>
                match texts rest with
                | Some ts => Some (t :: ts)
                | None => None
                end
            | None => None
            end
        end in
      option_map (join [comma]) (texts items)
  | VObject fields =>
      match own fields (js "toString") with
      | Some _ => None
      | None => Some (js "[object Object]")
      end
  | VFunction text => Some text
  end.

(** The [replace] of [downloadCSV]: every quote character (code 34) is
    written twice. *)
Definition doubleQuotes (s : jsstring) : jsstring :=
  flat_map (fun c => if Ascii.eqb c quote then [quote; quote] else [c]) s.

(** The template literal around it. *)
Definition quoted (s : jsstring) : jsstring := quote :: doubleQuotes s ++ [quote].

Definition isAlnum (c : ascii) : bool :=
  let n := nat_of_ascii c in
  ((97 <=? n) && (n <=? 122)) || ((65 <=? n) && (n <=? 90)) || ((48 <=? n) && (n <=? 57)).

(** [title.replace(/[^a-zA-Z0-9]/g, '_')]. *)
Definition sanitize (title : jsstring) : jsstring :=
  List.map (fun c => if isAlnum c then c else underscore) title.

Definition columns (data : list Row) : list jsstring :=
  match data with
  | [] => []
  | first :: _ => keys first
  end.

(** ... and the [download] attribute of the link. *)
Definition downloadName (title : jsstring) : jsstring :=
  sanitize title ++ js ".csv".

Section Prototype.

(** The properties every row inherits: those of [Object.prototype] in the
    page ([constructor], [toString], [valueOf], [hasOwnProperty], ... as
    functions, [__proto__] as an object). *)
Variable objectPrototype : Row.

(** [row[col]]: the own property, else the inherited one; [None] is
    [undefined]. *)
Definition get (row : Row) (col : jsstring) : option Value :=
  match own row col with
  | Some v => Some v
  | None => own objectPrototype col
  end.

(** [String(row[col] || '')]; [None] when [String] throws. *)
Definition cellText (row : Row) (col : jsstring) : option jsstring :=
  match get row col with
  | Some v => if truthy v then toString v else Some []
  | None => Some []
  end.

(** One element of [rows]. *)
Definition rowLine (cols : list jsstring) (row : Row) : option jsstring :=
  option_map (fun cells => join [comma] (List.map quoted cells))
             (traverse (cellText row) cols).

Definition csvRows (data : list Row) : option (list jsstring) :=
  traverse (rowLine (columns data)) data.

(** The text handed to the [Blob]. *)
Definition csvContent (data : list Row) : option jsstring :=
  let headers := join [comma] (columns data) in
  option_map (fun rows => join [newline] (headers :: rows)) (csvRows data).

(** What [downloadCSV] produces for the payload [data] under [title]: the
    content of the file and its suggested name; [None] when it throws, and
    nothing is downloaded. *)
Definition downloadCSV (data : list Row) (title : jsstring)
    : option (jsstring * jsstring) :=
  option_map (fun content => (content, downloadName title)) (csvContent data).

End Prototype.

(** Reading one quoted field back, the way a CSV reader does: the opening
    quote, then the text with doubled quotes read as one, up to the closing
    quote. *)
Fixpoint unquoteBody (s : jsstring) : option jsstring :=
  match s with
  | [] => None
  | c :: rest =>
      if Ascii.eqb c quote then
        match rest with
        | [] => Some []
        | c' :: rest' =>
            if Ascii.eqb c' quote
            then option_map (cons quote) (unquoteBody rest')
            else None
        end
      else option_map (cons c) (unquoteBody rest)
  end.

Definition unquote (s : jsstring) : option jsstring :=
  match s with
  | c :: rest => if Ascii.eqb c quote then unquoteBody rest else None
  | [] => None
  end.

(** A title with its non-alphanumeric characters stripped. *)
Definition stripped (title : jsstring) : jsstring := List.filter isAlnum title.

End Csv.

(** ** The progressive table renderer: [AnimatedTable] *)

Module AnimatedTable.

Record t : Type := mk {
  visibleRows : nat;
  isComplete : bool;
  currentRow : nat;      (* the [let currentRow] of the effect *)
  maxRows : nat;         (* [Math.min(data.length, 50)] *)
  interval : option Z    (* next tick of the running interval *)
}.

Definition period : Z := 100.

(** The effect on [data]: nothing for an empty array (the component then
    renders [null]); otherwise the states are reset and the interval starts. *)
Definition mount {Row} (now : Z) (data : list Row) : t :=
  match data with
  | [] => mk 0 false 0 0 None
  | _ :: _ => mk 0 false 0 (Nat.min (length data) 50) (Some (now + period)%Z)
  end.

(** One run of the interval callback; the boolean tells whether
    [onComplete()] was called. *)
Definition tick (c : t) : t * bool :=
  match interval c with
  | None => (c, false)
  | Some due =>
      if currentRow c <? maxRows c
      then (mk (currentRow c + 1) (isComplete c) (currentRow c + 1) (maxRows c)
               (Some (due + period)%Z), false)
      else (mk (visibleRows c) true (currentRow c) (maxRows c) None, true)
  end.

End AnimatedTable.

(** ** Messages and the session store *)

Inductive Role : Set :=
| user   (* type: 'user' *)
| bot.   (* type: 'bot' *)

Definition Role_eqb (a b : Role) : bool :=
  match a, b with
  | user, user | bot, bot => true
  | _, _ => false
  end.

(** A message object.  [timestamp] is the time value of its [Date];
    [isTyping] is [false] where the object has no such field (user messages:
    [!m.isTyping] holds of them); the optional fields are [None] when absent.
    [processing_time], a float that is only displayed, is left out. *)
Record Message : Type := mkMessage {
  id : Z;
  type : Role;
  message : jsstring;
  timestamp : Z;
  isTyping : bool;
  result_count : option Z;
  success : option bool;
  suggestions : option (list jsstring)
}.

Definition setTyping (b : bool) (m : Message) : Message :=
  mkMessage (id m) (type m) (message m) (timestamp m) b
            (result_count m) (success m) (suggestions m).

Module Store.

(** What [localStorage] holds under a key, told by what [JSON.parse] makes of
    it: a text it throws on, or the text [JSON.stringify] wrote for an array
    of messages.  ([JSON.stringify] writes a [Date] as its ISO string and
    [new Date] reads that back to the same time value; [setItem] is taken
    not to throw.) *)
Inductive Item : Type :=
| NotJson
| JsonMessages (l : list Message).

Definition MESSAGES : string := "365tunebot_messages".
Definition SESSION_ID : string := "365tunebot_session_id".
Definition SIDEBAR_DATA : string := "365tunebot_sidebar".

(** The object built for each parsed message:
    [{...msg, timestamp: new Date(msg.timestamp), isTyping: false}]. *)
Definition restored (msg : Message) : Message := setTyping false msg.

Definition getStoredData (ls : gmap string Item) (key : string)
    (defaultValue : option (list Message)) : option (list Message) :=
  match ls !! key with
  | None => defaultValue
  | Some NotJson => defaultValue
  | Some (JsonMessages parsed) =>
      if String.eqb key MESSAGES
      then Some (List.map restored parsed)
      else Some parsed
  end.

Definition saveToStorage (ls : gmap string Item) (key : string)
    (data : list Message) : gmap string Item :=
  <[key := JsonMessages data]> ls.

(** [l.slice(-n)]: the last [n] elements. *)
Definition sliceLast {A} (n : nat) (l : list A) : list A :=
  skipn (length l - n) l.

(** The effect on [messages]. *)
Definition saveMessages (ls : gmap string Item) (messages : list Message)
    : gmap string Item :=
  let messagesToSave := List.filter (fun m => negb (isTyping m)) messages in
  if 0 <? length messagesToSave
  then saveToStorage ls MESSAGES (sliceLast 100 messagesToSave)
  else ls.

Definition greetingText : jsstring :=
  js "Hi! I'm 365 Tune Bot. Ask me questions about your Microsoft 365 data.".

Definition greeting (now : Z) : Message :=
  mkMessage 1 bot greetingText now false None None None.

(** The initialiser of the [messages] state. *)
Definition initialMessages (ls : gmap string Item) (now : Z) : list Message :=
  match getStoredData ls MESSAGES None with
  | Some stored => if 0 <? length stored then stored else [greeting now]
  | None => [greeting now]
  end.

End Store.

(** ** The [ChatBot] component *)

Module Backend.

(** [response.data] of [POST /api/chat]; a field is [None] when it is absent
    (or [null]). *)
Record Response : Type := mkResponse {
  message : option jsstring;
  results : option (list Csv.Row);
  result_count : option Z;
  success : option bool
}.

End Backend.

Module Sidebar.

(** The object given to [setSidebarData]. *)
Record Data : Type := mkData {
  title : jsstring;
  data : list Csv.Row;
  query : jsstring;
  behavior : Behavior;
  showArtifact : bool
}.

End Sidebar.

(** A pending [setTimeout]: its handle, the time it is due and what it runs:
    the auto-close of [sendMessage] or the delayed [setSidebarTyping(true)] of
    [handleTypingComplete]. *)
Inductive TimeoutKind : Set :=
| AutoClose
| StartTable.

Record Timeout : Type := mkTimeout {
  handle : nat;
  due : Z;
  callback : TimeoutKind
}.

(** The state of the page.  The session id and the voice input ([sessionId],
    [isListening], [voiceSupported]) take no part in what follows and are
    left out. *)
Record State : Type := mkState {
  (** React state of [ChatBot]. *)
  messages : list Message;
  inputMessage : jsstring;
  isLoading : bool;
  typingMessageId : option Z;
  sidebarData : option Sidebar.Data;
  sidebarTyping : bool;
  showInitialSuggestions : bool;
  lastUserQuery : jsstring;
  sidebarBehavior : Behavior;
  showArtifact : bool;
  autoCloseTimer : option nat;
  (** The mounted children: one [TypewriterText] per message shown as typing,
      and the [AnimatedTable] of the sidebar. *)
  typewriters : list (option TypewriterText.t);
  table : option AnimatedTable.t;
  (** The surroundings: the clock ([Date.now()]), the pending [setTimeout]
      calls, the next timer handle, the awaited [axios.post] (its
      [actualMessage]) and [localStorage]. *)
  now : Z;
  timeouts : list Timeout;
  nextTimer : nat;
  request : option jsstring;
  storage : gmap string Store.Item
}.

Definition setMessages (v : list Message) (s : State) : State :=
  mkState v (inputMessage s) (isLoading s) (typingMessageId s) (sidebarData s)
    (sidebarTyping s) (showInitialSuggestions s) (lastUserQuery s) (sidebarBehavior s)
    (showArtifact s) (autoCloseTimer s) (typewriters s) (table s) (now s) (timeouts s)
    (nextTimer s) (request s) (storage s).

Definition setInputMessage (v : jsstring) (s : State) : State :=
  mkState (messages s) v (isLoading s) (typingMessageId s) (sidebarData s)
    (sidebarTyping s) (showInitialSuggestions s) (lastUserQuery s) (sidebarBehavior s)
    (showArtifact s) (autoCloseTimer s) (typewriters s) (table s) (now s) (timeouts s)
    (nextTimer s) (request s) (storage s).

Definition setIsLoading (v : bool) (s : State) : State :=
  mkState (messages s) (inputMessage s) v (typingMessageId s) (sidebarData s)
    (sidebarTyping s) (showInitialSuggestions s) (lastUserQuery s) (sidebarBehavior s)
    (showArtifact s) (autoCloseTimer s) (typewriters s) (table s) (now s) (timeouts s)
    (nextTimer s) (request s) (storage s).

Definition setTypingMessageId (v : option Z) (s : State) : State :=
  mkState (messages s) (inputMessage s) (isLoading s) v (sidebarData s) (sidebarTyping
    s) (showInitialSuggestions s) (lastUserQuery s) (sidebarBehavior s) (showArtifact s)
    (autoCloseTimer s) (typewriters s) (table s) (now s) (timeouts s) (nextTimer s)
    (request s) (storage s).

Definition setSidebarData (v : option Sidebar.Data) (s : State) : State :=
  mkState (messages s) (inputMessage s) (isLoading s) (typingMessageId s) v
    (sidebarTyping s) (showInitialSuggestions s) (lastUserQuery s) (sidebarBehavior s)
    (showArtifact s) (autoCloseTimer s) (typewriters s) (table s) (now s) (timeouts s)
    (nextTimer s) (request s) (storage s).

Definition setSidebarTyping (v : bool) (s : State) : State :=
  mkState (messages s) (inputMessage s) (isLoading s) (typingMessageId s) (sidebarData
    s) v (showInitialSuggestions s) (lastUserQuery s) (sidebarBehavior s) (showArtifact
    s) (autoCloseTimer s) (typewriters s) (table s) (now s) (timeouts s) (nextTimer s)
    (request s) (storage s).

Definition setShowInitialSuggestions (v : bool) (s : State) : State :=
  mkState (messages s) (inputMessage s) (isLoading s) (typingMessageId s) (sidebarData
    s) (sidebarTyping s) v (lastUserQuery s) (sidebarBehavior s) (showArtifact s)
    (autoCloseTimer s) (typewriters s) (table s) (now s) (timeouts s) (nextTimer s)
    (request s) (storage s).

Definition setLastUserQuery (v : jsstring) (s : State) : State :=
  mkState (messages s) (inputMessage s) (isLoading s) (typingMessageId s) (sidebarData
    s) (sidebarTyping s) (showInitialSuggestions s) v (sidebarBehavior s) (showArtifact
    s) (autoCloseTimer s) (typewriters s) (table s) (now s) (timeouts s) (nextTimer s)
    (request s) (storage s).

Definition setSidebarBehavior (v : Behavior) (s : State) : State :=
  mkState (messages s) (inputMessage s) (isLoading s) (typingMessageId s) (sidebarData
    s) (sidebarTyping s) (showInitialSuggestions s) (lastUserQuery s) v (showArtifact s)
    (autoCloseTimer s) (typewriters s) (table s) (now s) (timeouts s) (nextTimer s)
    (request s) (storage s).

Definition setShowArtifact (v : bool) (s : State) : State :=
  mkState (messages s) (inputMessage s) (isLoading s) (typingMessageId s) (sidebarData
    s) (sidebarTyping s) (showInitialSuggestions s) (lastUserQuery s) (sidebarBehavior
    s) v (autoCloseTimer s) (typewriters s) (table s) (now s) (timeouts s) (nextTimer s)
    (request s) (storage s).

Definition setAutoCloseTimer (v : option nat) (s : State) : State :=
  mkState (messages s) (inputMessage s) (isLoading s) (typingMessageId s) (sidebarData
    s) (sidebarTyping s) (showInitialSuggestions s) (lastUserQuery s) (sidebarBehavior
    s) (showArtifact s) v (typewriters s) (table s) (now s) (timeouts s) (nextTimer s)
    (request s) (storage s).

Definition setTypewriters (v : list (option TypewriterText.t)) (s : State) : State :=
  mkState (messages s) (inputMessage s) (isLoading s) (typingMessageId s) (sidebarData
    s) (sidebarTyping s) (showInitialSuggestions s) (lastUserQuery s) (sidebarBehavior
    s) (showArtifact s) (autoCloseTimer s) v (table s) (now s) (timeouts s) (nextTimer
    s) (request s) (storage s).

Definition setTable (v : option AnimatedTable.t) (s : State) : State :=
  mkState (messages s) (inputMessage s) (isLoading s) (typingMessageId s) (sidebarData
    s) (sidebarTyping s) (showInitialSuggestions s) (lastUserQuery s) (sidebarBehavior
    s) (showArtifact s) (autoCloseTimer s) (typewriters s) v (now s) (timeouts s)
    (nextTimer s) (request s) (storage s).

Definition setNow (v : Z) (s : State) : State :=
  mkState (messages s) (inputMessage s) (isLoading s) (typingMessageId s) (sidebarData
    s) (sidebarTyping s) (showInitialSuggestions s) (lastUserQuery s) (sidebarBehavior
    s) (showArtifact s) (autoCloseTimer s) (typewriters s) (table s) v (timeouts s)
    (nextTimer s) (request s) (storage s).

Definition setTimeouts (v : list Timeout) (s : State) : State :=
  mkState (messages s) (inputMessage s) (isLoading s) (typingMessageId s) (sidebarData
    s) (sidebarTyping s) (showInitialSuggestions s) (lastUserQuery s) (sidebarBehavior
    s) (showArtifact s) (autoCloseTimer s) (typewriters s) (table s) (now s) v
    (nextTimer s) (request s) (storage s).

Definition setNextTimer (v : nat) (s : State) : State :=
  mkState (messages s) (inputMessage s) (isLoading s) (typingMessageId s) (sidebarData
    s) (sidebarTyping s) (showInitialSuggestions s) (lastUserQuery s) (sidebarBehavior
    s) (showArtifact s) (autoCloseTimer s) (typewriters s) (table s) (now s) (timeouts
    s) v (request s) (storage s).

Definition setRequest (v : option jsstring) (s : State) : State :=
  mkState (messages s) (inputMessage s) (isLoading s) (typingMessageId s) (sidebarData
    s) (sidebarTyping s) (showInitialSuggestions s) (lastUserQuery s) (sidebarBehavior
    s) (showArtifact s) (autoCloseTimer s) (typewriters s) (table s) (now s) (timeouts
    s) (nextTimer s) v (storage s).

Definition setStorage (v : gmap string Store.Item) (s : State) : State :=
  mkState (messages s) (inputMessage s) (isLoading s) (typingMessageId s) (sidebarData
    s) (sidebarTyping s) (showInitialSuggestions s) (lastUserQuery s) (sidebarBehavior
    s) (showArtifact s) (autoCloseTimer s) (typewriters s) (table s) (now s) (timeouts
    s) (nextTimer s) (request s) v.

Definition isNil {A} (l : list A) : bool :=
  match l with [] => true | _ => false end.

(** [setTimeout(cb, delay)]: a fresh handle, due [delay] from now. *)
Definition setTimeout (cb : TimeoutKind) (delay : Z) (s : State) : nat * State :=
  let timer := nextTimer s in
  (timer,
   setNextTimer (S timer)
     (setTimeouts (timeouts s ++ [mkTimeout timer (now s + delay)%Z cb]) s)).

(** [clearTimeout(timer)]: a handle that is not pending is ignored. *)
Definition clearTimeout (timer : nat) (s : State) : State :=
  setTimeouts (List.filter (fun t => negb (handle t =? timer)) (timeouts s)) s.

(** *** Rendering

    [ChatBot] renders a [TypewriterText] (keyed by the message) for every
    message with [type === 'bot' && isTyping], and an [AnimatedTable] when
    [sidebarData] is set, [showArtifact] is off and the data is not empty.
    A [TypewriterText] that stays mounted keeps its state and its interval
    (its effect depends on [text] and [speed] only); one that appears is
    mounted, one that disappears is unmounted and its interval cleared.  The
    [AnimatedTable] gets a fresh [onComplete] closure at every render of
    [ChatBot], and its effect depends on [onComplete]: at every render the
    effect is cleaned up and run again, which resets the rows and restarts
    the interval. *)

Fixpoint renderTypewriters (now : Z) (ms : list Message)
    (mounted : list (option TypewriterText.t)) : list (option TypewriterText.t) :=
  match ms with
  | [] => []
  | m :: ms' =>
      (if Role_eqb (type m) bot && isTyping m
       then Some (match hd None mounted with
                  | Some c => c
                  | None => TypewriterText.mount now (message m)
                  end)
       else None) :: renderTypewriters now ms' (tl mounted)
  end.

Definition renderTable (s : State) : option AnimatedTable.t :=
  match sidebarData s with
  | Some d =>
      if showArtifact s then None
      else if isNil (Sidebar.data d) then None
      else Some (AnimatedTable.mount (now s) (Sidebar.data d))
  | None => None
  end.

Definition render (s : State) : State :=
  setTable (renderTable s)
    (setTypewriters (renderTypewriters (now s) (messages s) (typewriters s)) s).

(** The effect on [messages]: save them. *)
Definition saveEffect (s : State) : State :=
  setStorage (Store.saveMessages (storage s) (messages s)) s.

(** A render after [messages] changed. *)
Definition commit (s : State) : State := saveEffect (render s).

(** *** Mounting [ChatBot] on a page whose [localStorage] is [ls], at time [t].

    After the first render the effects run in order: the messages are saved,
    and the initial suggestions are hidden when more than one message is
    stored. *)
Definition init (ls : gmap string Store.Item) (t : Z) : State :=
  let s :=
    commit
      (mkState (Store.initialMessages ls t) [] false None None false true []
               AutoDecide false None [] None t [] 1 None ls) in
  match Store.getStoredData (storage s) Store.MESSAGES (Some []) with
  | Some storedMessages =>
      if 1 <? length storedMessages then setShowInitialSuggestions false s else s
  | None => s
  end.

(** *** [handleTypingComplete]

    The function is kept in a [useRef], whose value is the closure of the
    first render: the [sidebarData] it reads is the one captured then, given
    here as [captured]. *)
Definition handleTypingComplete (captured : option Sidebar.Data) (messageId : Z)
    (s : State) : State :=
  let s := setTypingMessageId None s in
  let s := setMessages
             (List.map (fun msg => if (id msg =? messageId)%Z then setTyping false msg else msg)
                       (messages s)) s in
  match captured with
  | Some d =>
      if isNil (Sidebar.data d) then s
      else snd (setTimeout StartTable 300 s)
  | None => s
  end.

(** At the first render [sidebarData] is its initial state, [null]. *)
Definition capturedSidebarData : option Sidebar.Data := None.

(** *** [sendMessage]

    The part before [await]; [None] is the early [return]. *)
Definition sendMessage (messageToSend : option jsstring) (s : State) : option State :=
  let actualMessage :=
    match messageToSend with
    | Some m => if isEmpty m then inputMessage s else m
    | None => inputMessage s
    end in
  if isEmpty (trim actualMessage) || isLoading s then None
  else
    let s := setInputMessage [] s in
    let s := setIsLoading true s in
    let s := setShowInitialSuggestions false s in
    let s := setLastUserQuery actualMessage s in
    let userMessage :=
      mkMessage (now s) user actualMessage (now s) false None None None in
    let s := setMessages (messages s ++ [userMessage]) s in
    let s := setSidebarData None s in
    let s := setSidebarTyping false s in
    let s := setShowArtifact false s in
    let s :=
      match autoCloseTimer s with
      | Some timer => setAutoCloseTimer None (clearTimeout timer s)
      | None => s
      end in
    Some (setRequest (Some actualMessage) s).

Definition fallbackText : jsstring :=
  js "Sorry, I couldn't process your request at the moment.".

(** [Query Results (${resultCount} records)]. *)
Definition titleOf (resultCount : Z) : jsstring :=
  js "Query Results (" ++ stringOfZ resultCount ++ js " records)".

(** The part after [await], when the request resolved with [response]. *)
Definition sendMessage_resolved (actualMessage : jsstring)
    (response : Backend.Response) (s : State) : State :=
  let botText := Backend.message response in
  let allResults := match Backend.results response with Some l => l | None => [] end in
  let resultCount :=
    match Backend.result_count response with
    | Some n => if (n =? 0)%Z then Z.of_nat (length allResults) else n
    | None => Z.of_nat (length allResults)
    end in
  let queryClassification := classifyQuery actualMessage in
  let shouldShowArtifactResult := shouldShowArtifact actualMessage allResults in
  let s :=
    if 0 <? length allResults then
      let shouldShowSidebar :=
        Behavior_eqb queryClassification ShowSidebar ||
        (Behavior_eqb queryClassification AutoDecide && (length allResults <=? 10)) ||
        Behavior_eqb queryClassification BriefShow in
      if shouldShowSidebar || shouldShowArtifactResult then
        let s := setSidebarData
                   (Some (Sidebar.mkData (titleOf resultCount) allResults actualMessage
                                         queryClassification shouldShowArtifactResult)) s in
        let s := setSidebarBehavior queryClassification s in
        let s := setShowArtifact shouldShowArtifactResult s in
        let s := setSidebarTyping false s in
        if Behavior_eqb queryClassification BriefShow then
          let (timer, s) := setTimeout AutoClose 5000 s in
          setAutoCloseTimer (Some timer) s
        else s
      else setSidebarData None s
    else setShowArtifact false (setSidebarData None s) in
  let botText :=
    match botText with
    | None => fallbackText
    | Some text => if isEmpty text || isEmpty (trim text) then fallbackText else text
    end in
  let botMessage :=
    mkMessage (now s + 1)%Z bot botText (now s) true (Some resultCount)
              (Backend.success response)
              (Some (generateSuggestions actualMessage (0 <? length allResults))) in
  let s := setMessages (messages s ++ [botMessage]) s in
  let s := setTypingMessageId (Some (id botMessage)) s in
  setRequest None (setIsLoading false s).

Definition errorSuggestions : list jsstring :=
  List.map js ["Try asking a different question"; "Check your connection";
               "Rephrase your query"]%string.

(** The [catch] branch, for an error whose [message] is [errorText]. *)
Definition sendMessage_rejected (errorText : jsstring) (s : State) : State :=
  let errorMessage :=
    mkMessage (now s + 1)%Z bot (js "Sorry, I encountered an error: " ++ errorText)
              (now s) true None (Some false) (Some errorSuggestions) in
  let s := setMessages (messages s ++ [errorMessage]) s in
  let s := setTypingMessageId (Some (id errorMessage)) s in
  setRequest None (setIsLoading false s).

(** The close button of the sidebar. *)
Definition closeSidebar (s : State) : State :=
  let s := setSidebarData None s in
  let s := setSidebarTyping false s in
  let s := setShowArtifact false s in
  match autoCloseTimer s with
  | Some timer => setAutoCloseTimer None (clearTimeout timer s)
  | None => s
  end.

(** The callback of the auto-close timer. *)
Definition autoClose (s : State) : State :=
  setShowArtifact false (setSidebarData None s).

(** *** The event loop

    What can happen to the page: the interval of a [TypewriterText] ticks
    (the one of the message at position [pos]), the interval of the
    [AnimatedTable] ticks, a timeout fires, or something arrives from outside
    at a time [t]: a call of [sendMessage], the answer or the failure of the
    pending request, a change of the input box, a click on the close button
    or on the artifact toggle.  Timers run at the time they are due, and
    nothing happens at a time when an earlier timer is still pending.  The
    Clear Chat button, which ends the page by a reload, and the voice input,
    which writes the input box only, are no events here. *)

Inductive Event : Type :=
| Submit (messageToSend : option jsstring)
| Reply (response : Backend.Response)
| ReplyError (errorText : jsstring)
| InputChange (value : jsstring)
| CloseSidebar
| ToggleArtifact.

Inductive Label : Type :=
| TextTick (pos : nat)
| RowTick
| Fire (timer : nat)
| At (t : Z) (e : Event).

Definition typewriterDues (s : State) : list Z :=
  flat_map (fun c => match c with
                     | Some c => match TypewriterText.intervalRef c with
                                 | Some d => [d]
                                 | None => []
                                 end
                     | None => []
                     end) (typewriters s).

Definition tableDues (s : State) : list Z :=
  match table s with
  | Some a => match AnimatedTable.interval a with Some d => [d] | None => [] end
  | None => []
  end.

Definition pendingDues (s : State) : list Z :=
  typewriterDues s ++ tableDues s ++ List.map due (timeouts s).

(** [t] is not in the past and no pending timer is due before [t]. *)
Definition mayHappenAt (s : State) (t : Z) : bool :=
  (now s <=? t)%Z && forallb (fun d => (t <=? d)%Z) (pendingDues s).

Definition handle_event (e : Event) (s : State) : option State :=
  match e with
  | Submit messageToSend =>
      match sendMessage messageToSend s with
      | Some s' => Some (commit s')
      | None => Some s
      end
  | Reply response =>
      match request s with
      | Some actualMessage => Some (commit (sendMessage_resolved actualMessage response s))
      | None => None
      end
  | ReplyError errorText =>
      match request s with
      | Some _ => Some (commit (sendMessage_rejected errorText s))
      | None => None
      end
  | InputChange value =>
      if isLoading s then None
      else if Csv.jsstring_eqb value (inputMessage s) then Some s
      else Some (render (setInputMessage value s))
  | CloseSidebar =>
      match sidebarData s with
      | Some _ => Some (render (closeSidebar s))
      | None => None
      end
  | ToggleArtifact =>
      match sidebarData s with
      | Some d =>
          if Sidebar.showArtifact d
          then Some (render (setShowArtifact (negb (showArtifact s)) s))
          else None
      | None => None
      end
  end.

Definition exec (s : State) (l : Label) : option State :=
  match l with
  | TextTick pos =>
      match typewriters s !! pos, messages s !! pos with
      | Some (Some c), Some m =>
          match TypewriterText.intervalRef c with
          | Some d =>
              if mayHappenAt s d then
                let s := setNow d s in
                let (c', completed) := TypewriterText.tick (message m) c in
                let s := setTypewriters (<[pos := Some c']> (typewriters s)) s in
                Some (if completed
                      then commit (handleTypingComplete capturedSidebarData (id m) s)
                      else s)
              else None
          | None => None
          end
      | _, _ => None
      end
  | RowTick =>
      match table s with
      | Some a =>
          match AnimatedTable.interval a with
          | Some d =>
              if mayHappenAt s d then
                let s := setNow d s in
                let (a', completed) := AnimatedTable.tick a in
                let s := setTable (Some a') s in
                Some (if completed && sidebarTyping s
                      then render (setSidebarTyping false s)
                      else s)
              else None
          | None => None
          end
      | None => None
      end
  | Fire timer =>
      match List.find (fun t => handle t =? timer) (timeouts s) with
      | Some tm =>
          if mayHappenAt s (due tm) then
            let s := clearTimeout timer (setNow (due tm) s) in
            Some (render (match callback tm with
                          | AutoClose => autoClose s
                          | StartTable => setSidebarTyping true s
                          end))
          else None
      | None => None
      end
  | At t e =>
      if mayHappenAt s t then handle_event e (setNow t s) else None
  end.

Fixpoint run (s : State) (ls : list Label) : option State :=
  match ls with
  | [] => Some s
  | l :: rest =>
      match exec s l with
      | Some s' => run s' rest
      | None => None
      end
  end.

Definition reachable (s : State) : Prop :=
  exists ls0 t0 trace, run (init ls0 t0) trace = Some s.

(** The messages being revealed. *)
Definition revealing (s : State) : list Message :=
  List.filter isTyping (messages s).

(** The table of the sidebar has shown all its rows. *)
Definition tableRevealed (s : State) : bool :=
  match table s with
  | Some a => AnimatedTable.isComplete a
  | None => false
  end.

(** The sidebar carries the [open] class exactly when [sidebarData] is set. *)
Definition sidebarShown (s : State) : bool :=
  match sidebarData s with Some _ => true | None => false end.

(** The states of the panel: closed without a payload, revealing while the
    table has not shown all its rows, open once it has. *)
Definition panelOpen (s : State) : bool := sidebarShown s && tableRevealed s.

(** A text reveal is in progress: some mounted [TypewriterText] still has its
    interval. *)
Definition textRevealRunning (s : State) : bool :=
  negb (isNil (typewriterDues s)).

(** The table reveal is in progress. *)
Definition tableRevealRunning (s : State) : bool :=
  negb (isNil (tableDues s)).

(** ** Vocabulary of the statements *)

(** The lower-cased query contains one of the phrases. *)
Definition matches (phrases : list jsstring) (userQuery : jsstring) : Prop :=
  exists phrase, In phrase phrases /\ occursIn phrase (toLowerCase userQuery).

(** The lower-cased query contains the word. *)
Definition mentions (word : string) (userQuery : jsstring) : Prop :=
  occursIn (js word) (toLowerCase userQuery).

(** The claim's reading of a text reveal: once it has been given enough
    ticks, the component has shown as many display states as the text has
    characters and has called back exactly once. *)
Definition revealsAndCompletes (text : jsstring) : Prop :=
  exists n, forall fuel now, n <= fuel ->
    length (fst (fst (TypewriterText.reveal fuel now text))) = length text /\
    snd (fst (TypewriterText.reveal fuel now text)) = 1.

(** The pending timeouts of a state the controller can be in: none, or the
    auto-close timer whose handle [autoCloseTimer] holds, and then no request
    is awaited. *)
Definition timersOk (s : State) : Prop :=
  timeouts s = [] \/
  (request s = None /\
   exists timer d, timeouts s = [mkTimeout timer d AutoClose] /\
                   autoCloseTimer s = Some timer).

(** Labels other than a call of [sendMessage] and a click on the close
    button. *)
Definition quietLabel (l : Label) : bool :=
  match l with
  | At _ (Submit _) => false
  | At _ CloseSidebar => false
  | _ => true
  end.

(** The sidebar is shown and its auto-close timer, started at [T], is
    pending. *)
Definition armed (T : Z) (s : State) : Prop :=
  request s = None /\ sidebarShown s = true /\
  (exists timer, timeouts s = [mkTimeout timer (T + 5000)%Z AutoClose] /\
                 autoCloseTimer s = Some timer) /\
  (now s <= T + 5000)%Z.

(** The auto-close timer started at [T] has fired. *)
Definition closedBy (T : Z) (s : State) : Prop :=
  request s = None /\ sidebarShown s = false /\ timeouts s = [] /\
  (T + 5000 <= now s)%Z.

(** The first message is not being revealed. *)
Definition headFinal (ms : list Message) : Prop :=
  exists m rest, ms = m :: rest /\ isTyping m = false.

(** [localStorage] holds what the save effect wrote for the current
    messages. *)
Definition saved (s : State) : Prop :=
  storage s !! Store.MESSAGES =
    Some (Store.JsonMessages
            (Store.sliceLast 100 (List.filter (fun m => negb (isTyping m)) (messages s)))) /\
  headFinal (messages s).

(** A user who waits: [sendMessage] is called only when no message is being
    revealed. *)
Definition patient (s : State) (l : Label) : bool :=
  match l with
  | At _ (Submit _) => isNil (revealing s)
  | _ => true
  end.

Fixpoint runPatient (s : State) (ls : list Label) : option State :=
  match ls with
  | [] => Some s
  | l :: rest =>
      if patient s l then
        match exec s l with
        | Some s' => runPatient s' rest
        | None => None
        end
      else None
  end.

(** The rows of a response: [response.data.results || []]. *)
Definition rowsOf (response : Backend.Response) : list Csv.Row :=
  match Backend.results response with Some l => l | None => [] end.

(** The response to [actualMessage] puts a payload in the sidebar. *)
Definition showsPanel (actualMessage : jsstring) (rows : list Csv.Row) : bool :=
  (0 <? length rows) &&
  (Behavior_eqb (classifyQuery actualMessage) ShowSidebar ||
   (Behavior_eqb (classifyQuery actualMessage) AutoDecide && (length rows <=? 10)) ||
   Behavior_eqb (classifyQuery actualMessage) BriefShow ||
   shouldShowArtifact actualMessage rows).

(** The response carries no text: the field is absent, or it is made of
    white space only (the empty text included). *)
Definition blank (response : Backend.Response) : Prop :=
  match Backend.message response with
  | None => True
  | Some text => whiteOnly text
  end.

(** Example runs start on a page with an empty [localStorage], at time 0. *)
Definition stateAfter (trace : list Label) : State :=
  match run (init ∅ 0) trace with
  | Some s => s
  | None => init ∅ 0
  end.

Definition oneRow : list Csv.Row := [[(js "name", Csv.VStr (js "Ann"))]].

(** A brief-show query answered with the text [Hi] and one row. *)
Definition adminReply : Backend.Response :=
  Backend.mkResponse (Some (js "Hi")) (Some oneRow) (Some 1%Z) (Some true).

Definition adminAsked : list Label :=
  [At 1000 (Submit (Some (js "Who is the admin")))].

(** After the answer at 1500: the three ticks of the text (the last one
    completes it and re-renders the page, which restarts the table), the
    tick that shows the row, and the tick that completes the table. *)
Definition adminRevealed : list Label :=
  [TextTick 2; TextTick 2; TextTick 2; RowTick; RowTick].

(** A listing query answered with a text of 18 characters and one row. *)
Definition usersReply : Backend.Response :=
  Backend.mkResponse (Some (js "Here are the users")) (Some oneRow) (Some 1%Z) (Some true).

Definition usersAnswered : list Label :=
  [At 1000 (Submit (Some (js "Show me users"))); At 1500 (Reply usersReply)].

(** A query answered with a text of 67 characters and no rows. *)
Definition longReply : Backend.Response :=
  Backend.mkResponse
    (Some (js "This answer is long enough to keep the typewriter busy for a while."))
    None None (Some true).

(** The user asks again 410 time units after the first answer arrived, while
    its text is still being revealed, and the second answer arrives 480 time
    units later. *)
Definition impatient : list Label :=
  [At 1000 (Submit (Some (js "hello there"))); At 1500 (Reply longReply)]
  ++ repeat (TextTick 2) 20
  ++ [At 1910 (Submit (Some (js "and again")))]
  ++ repeat (TextTick 2) 24
  ++ [At 2390 (Reply longReply)].

(** [Object.prototype] as a page has it: its functions, by the text [String]
    shows for a native function, and [__proto__]. *)
Definition nativeFunction (name : jsstring) : Csv.Value :=
  Csv.VFunction (js "function " ++ name ++ js "() { [native code] }").

Definition pagePrototype : Csv.Row :=
  [(js "constructor", nativeFunction (js "Object"));
   (js "__defineGetter__", nativeFunction (js "__defineGetter__"));
   (js "__defineSetter__", nativeFunction (js "__defineSetter__"));
   (js "hasOwnProperty", nativeFunction (js "hasOwnProperty"));
   (js "__lookupGetter__", nativeFunction (js "__lookupGetter__"));
   (js "__lookupSetter__", nativeFunction (js "__lookupSetter__"));
   (js "isPrototypeOf", nativeFunction (js "isPrototypeOf"));
   (js "propertyIsEnumerable", nativeFunction (js "propertyIsEnumerable"));
   (js "toString", nativeFunction (js "toString"));
   (js "valueOf", nativeFunction (js "valueOf"));
   (js "__proto__", Csv.VObject []);
   (js "toLocaleString", nativeFunction (js "toLocaleString"))].

(** Two rows, the second without the column [constructor] of the first. *)
Definition mixedRows : list Csv.Row :=
  [[(js "constructor", Csv.VStr (js "x")); (js "name", Csv.VStr (js "a"))];
   [(js "name", Csv.VStr (js "b"))]].

(** ** Further parts of [ChatBot.js] *)

(** *** [AnimatedTable] left alone

    The interval callback runs as long as the interval is set.  The result
    lists the values [setVisibleRows] was given, counts the calls of
    [onComplete] and gives the last state. *)
Fixpoint runTable (fuel : nat) (c : AnimatedTable.t) : list nat * nat * AnimatedTable.t :=
  match fuel with
  | O => ([], 0, c)
  | S fuel' =>
      match AnimatedTable.interval c with
      | None => ([], 0, c)
      | Some _ =>
          let (c', completed) := AnimatedTable.tick c in
          let '(shown, calls, final) := runTable fuel' c' in
          if completed then (shown, S calls, final)
          else (AnimatedTable.visibleRows c' :: shown, calls, final)
      end
  end.

(** The rows the table renders: [data.slice(0, visibleRows)]. *)
Definition displayData {Row} (data : list Row) (c : AnimatedTable.t) : list Row :=
  firstn (AnimatedTable.visibleRows c) data.

(** *** The [onresult] handler of the speech recognition

    [event.results] from [event.resultIndex] on: the transcripts of the final
    results and those of the others are concatenated apart, and the input
    box gets [finalTranscript || interimTranscript]. *)
Module Speech.

Record Result : Type := mkResult {
  transcript : jsstring;
  isFinal : bool
}.

Definition accumulate (acc : jsstring * jsstring) (r : Result) : jsstring * jsstring :=
  if isFinal r
  then (fst acc ++ transcript r, snd acc)
  else (fst acc, snd acc ++ transcript r).

Definition onresult (resultIndex : nat) (results : list Result) : jsstring :=
  let '(finalTranscript, interimTranscript) :=
    fold_left accumulate (skipn resultIndex results) ([], []) in
  if isEmpty finalTranscript then interimTranscript else finalTranscript.

End Speech.

(** *** Reading a line of quoted fields

    The reader of a line written by [downloadCSV]: fields between quotes,
    doubled quotes read as one, commas between the fields.  [acc] holds the
    current field backwards; [inside] tells whether a field is open. *)
Fixpoint readFields (s : jsstring) (acc : jsstring) (inside : bool)
    : option (list jsstring) :=
  match s with
  | [] => None
  | c :: rest =>
      if inside then
        if Ascii.eqb c Csv.quote then
          match rest with
          | [] => Some [rev acc]
          | c' :: rest' =>
              if Ascii.eqb c' Csv.quote then readFields rest' (Csv.quote :: acc) true
              else if Ascii.eqb c' Csv.comma
                   then option_map (cons (rev acc)) (readFields rest' [] false)
                   else None
          end
        else readFields rest (c :: acc) true
      else if Ascii.eqb c Csv.quote then readFields rest [] true else None
  end.

Definition readLine (line : jsstring) : option (list jsstring) :=
  readFields line [] false.

(** *** Vocabulary of the further statements *)

(** [messageToSend || inputMessage]. *)
Definition actualMessageOf (messageToSend : option jsstring) (s : State) : jsstring :=
  match messageToSend with
  | Some m => if isEmpty m then inputMessage s else m
  | None => inputMessage s
  end.

(** The table of the sidebar fits the payload: it is mounted exactly in the
    table view, never shows more rows than the payload has or than 50, and is
    complete exactly when its interval is cleared, all its rows shown. *)
Definition tableOk (payload : option Sidebar.Data) (artifact : bool)
    (tbl : option AnimatedTable.t) : Prop :=
  match tbl with
  | Some a =>
      exists d, payload = Some d /\ artifact = false /\
        AnimatedTable.maxRows a = Nat.min (length (Sidebar.data d)) 50 /\
        AnimatedTable.visibleRows a <= AnimatedTable.maxRows a /\
        AnimatedTable.currentRow a = AnimatedTable.visibleRows a /\
        (AnimatedTable.isComplete a = true <-> AnimatedTable.interval a = None) /\
        (AnimatedTable.isComplete a = true ->
         AnimatedTable.visibleRows a = AnimatedTable.maxRows a)
  | None => payload = None \/ artifact = true
  end.

(** The payload of the sidebar is what [sendMessage] builds for a response
    that shows the panel. *)
Definition payloadOk (d : Sidebar.Data) : Prop :=
  Sidebar.data d <> [] /\
  Sidebar.behavior d = classifyQuery (Sidebar.query d) /\
  Sidebar.showArtifact d = shouldShowArtifact (Sidebar.query d) (Sidebar.data d) /\
  showsPanel (Sidebar.query d) (Sidebar.data d) = true.

(** What holds of the panel in every state of the controller. *)
Definition panelInv (s : State) : Prop :=
  isLoading s = match request s with Some _ => true | None => false end /\
  (request s <> None ->
   sidebarData s = None /\ showArtifact s = false /\ timeouts s = []) /\
  (forall d, sidebarData s = Some d -> payloadOk d) /\
  (showArtifact s = true ->
   exists d, sidebarData s = Some d /\ Sidebar.showArtifact d = true) /\
  ((timeouts s = [] /\
    forall d, sidebarData s = Some d -> Sidebar.behavior d <> BriefShow) \/
   (exists timer t d, timeouts s = [mkTimeout timer t AutoClose] /\
                      autoCloseTimer s = Some timer /\
                      sidebarData s = Some d /\ Sidebar.behavior d = BriefShow)) /\
  sidebarTyping s = false /\
  tableOk (sidebarData s) (showArtifact s) (table s).

(** A message and the [TypewriterText] at its position: a message being
    revealed is a [bot] message with a text that is not empty, its
    typewriter is mounted with its interval running and shows a prefix of the
    text; any other message has no typewriter. *)
Definition aligned (m : Message) (tw : option TypewriterText.t) : Prop :=
  if isTyping m then
    type m = bot /\ message m <> [] /\
    exists c d, tw = Some c /\ TypewriterText.intervalRef c = Some d /\
                TypewriterText.currentIndex c <= length (message m) /\
                TypewriterText.displayText c =
                  slice0 (message m) (TypewriterText.currentIndex c)
  else tw = None.

(** What identifies a message apart from its reveal state. *)
Definition messageKey (m : Message) : Z * Role * jsstring * Z :=
  (id m, type m, message m, timestamp m).

(** An export query answered with 60 rows. *)
Definition exportReply : Backend.Response :=
  Backend.mkResponse (Some (js "Here is the export")) (Some (repeat [] 60)) None (Some true).

Definition exportAsked : list Label :=
  [At 1000 (Submit (Some (js "highest paid users")))].

(** A message later on: itself, or itself with its reveal completed. *)
Definition laterOf (m m' : Message) : Prop :=
  m' = m \/ m' = setTyping false m.

(** A request that fails after 500 time units. *)
Definition adminFailed : list Label :=
  adminAsked ++ [At 1500 (ReplyError (js "Network Error"))].

(** Two rows with a comma, quotes and a line break in a cell, the second
    row without the column [constructor] of the first; and the lines of
    their export. *)
Definition quotedRows : list Csv.Row :=
  [[(js "constructor", Csv.VStr (js "x"));
    (js "name", Csv.VStr (js "a, the " ++ [Csv.quote] ++ js "first" ++ [Csv.quote; Csv.newline]))];
   [(js "name", Csv.VStr (js "b"))]].

Definition quotedLines : list jsstring :=
  match Csv.csvRows pagePrototype quotedRows with
  | Some lines => lines
  | None => []
  end.

(** *** [clearChatHistory]

    The handler of the Clear Chat button, once the user has confirmed: the
    state its writes to [localStorage] and its setters leave.  The new
    session identifier is a text [JSON.parse] throws on.  The handler clears
    no timeout.  It ends by asking for a reload of the page, which starts
    again from [init] on the storage left: the handler is no [Event], the
    runs of [exec] being those of a page up to a click on Clear Chat. *)
Definition clearChatHistory (s : State) : State :=
  let ls := delete Store.SIDEBAR_DATA
              (delete Store.SESSION_ID (delete Store.MESSAGES (storage s))) in
  let s := setStorage ls s in
  let s := setMessages [mkMessage (now s) bot Store.greetingText (now s) false
                                  None None None] s in
  let s := setSidebarData None s in
  let s := setShowInitialSuggestions true s in
  setStorage (<[Store.SESSION_ID := Store.NotJson]> (storage s)) s.

(** * Proofs *)

(** * Strings *)

Section StringFacts.

Implicit Types s p q : jsstring.

Lemma startsWith_spec s p :
  startsWith s p = true <-> exists post, s = p ++ post.
Proof.
  revert s; induction p as [|a p IH]; intros s; simpl.
  - split; [intros _; exists s; reflexivity | reflexivity].
  - destruct s as [|b s]; simpl.
    + split; [discriminate | intros [post H]; discriminate].
    + rewrite andb_true_iff, Ascii.eqb_eq, IH. split.
      * intros [-> [post ->]]. exists post. reflexivity.
      * intros [post H]. injection H as -> ->. split; [reflexivity | eauto].
Qed.

Lemma includes_spec s p : includes s p = true <-> occursIn p s.
Proof.
  unfold occursIn. induction s as [|b s IH].
  - simpl. rewrite orb_false_r, startsWith_spec. split.
    + intros [post H]. exists [], post. exact H.
    + intros [pre [post H]]. destruct pre; [exists post; exact H | discriminate].
  - change (includes (b :: s) p) with (startsWith (b :: s) p || includes s p).
    rewrite orb_true_iff, IH, startsWith_spec. split.
    + intros [[post H] | [pre [post H]]].
      * exists [], post. exact H.
      * exists (b :: pre), post. rewrite H. reflexivity.
    + intros [pre [post H]]. destruct pre as [|c pre].
      * left. exists post. exact H.
      * right. injection H as _ H. exists pre, post. exact H.
Qed.

Lemma includes_false s p : includes s p = false <-> ~ occursIn p s.
Proof.
  rewrite <- includes_spec. destruct (includes s p); split; congruence.
Qed.

Lemma some_includes_spec q (phrases : list jsstring) :
  some (fun phrase => includes q phrase) phrases = true <->
  exists phrase, In phrase phrases /\ occursIn phrase q.
Proof.
  unfold some. rewrite existsb_exists.
  split; intros [x [Hin H]]; exists x; (split; [exact Hin|]); apply includes_spec; exact H.
Qed.

Lemma some_includes_false q (phrases : list jsstring) :
  some (fun phrase => includes q phrase) phrases = false <->
  ~ exists phrase, In phrase phrases /\ occursIn phrase q.
Proof.
  rewrite <- some_includes_spec.
  destruct (some _ phrases); split; congruence.
Qed.

Lemma toLowerCase_app s q : toLowerCase (s ++ q) = toLowerCase s ++ toLowerCase q.
Proof. apply map_app. Qed.

(** Lower-casing a string keeps the occurrences of an all-lower-case phrase. *)
Lemma occursIn_toLowerCase p s :
  toLowerCase p = p -> occursIn p s -> occursIn p (toLowerCase s).
Proof.
  intros Hp [pre [post ->]].
  exists (toLowerCase pre), (toLowerCase post).
  rewrite !toLowerCase_app, Hp. reflexivity.
Qed.

Lemma trimStart_white s : whiteOnly s -> trimStart s = [].
Proof.
  induction 1 as [|c s Hc _ IH]; simpl; [reflexivity|]. rewrite Hc. exact IH.
Qed.

Lemma trim_white s : whiteOnly s -> trim s = [].
Proof.
  intros H. unfold trim, trimEnd. rewrite (trimStart_white s H). reflexivity.
Qed.

Lemma trimStart_nil_white s : trimStart s = [] -> whiteOnly s.
Proof.
  induction s as [|c s IH]; simpl; [constructor|].
  destruct (isWhiteSpace c) eqn:Hc; [|discriminate].
  intros H. constructor; [exact Hc | exact (IH H)].
Qed.

Lemma trimStart_head s c r : trimStart s = c :: r -> isWhiteSpace c = false.
Proof.
  induction s as [|d s IH]; simpl; [discriminate|].
  destruct (isWhiteSpace d) eqn:Hd; [exact IH|].
  intros E. injection E as -> _. exact Hd.
Qed.

Lemma trim_nil_white s : trim s = [] -> whiteOnly s.
Proof.
  unfold trim, trimEnd. intros H.
  assert (Hr : trimStart (rev (trimStart s)) = []).
  { rewrite <- (rev_involutive (trimStart (rev (trimStart s)))), H. reflexivity. }
  apply trimStart_nil_white in Hr.
  apply trimStart_nil_white.
  destruct (trimStart s) as [|c r] eqn:E; [reflexivity|].
  exfalso. apply trimStart_head in E.
  unfold whiteOnly in Hr. rewrite List.Forall_forall in Hr.
  rewrite (Hr c) in E; [discriminate|].
  apply in_rev. rewrite rev_involutive. left. reflexivity.
Qed.

(** [trim] gives the empty string exactly on the texts made of white space. *)
Lemma trim_empty_iff s : isEmpty (trim s) = true <-> whiteOnly s.
Proof.
  split.
  - intros H. apply trim_nil_white. destruct (trim s); [reflexivity | discriminate].
  - intros H. rewrite (trim_white s H). reflexivity.
Qed.

End StringFacts.

(** * The classifier, the artifact predicate, the suggestions *)

Lemma matches_some (phrases : list jsstring) (userQuery : jsstring) :
  some (fun phrase => includes (toLowerCase userQuery) phrase) phrases = true <->
  matches phrases userQuery.
Proof. apply some_includes_spec. Qed.

Lemma matches_some_false (phrases : list jsstring) (userQuery : jsstring) :
  some (fun phrase => includes (toLowerCase userQuery) phrase) phrases = false <->
  ~ matches phrases userQuery.
Proof. apply some_includes_false. Qed.

Lemma mentions_includes (word : string) (userQuery : jsstring) :
  includes (toLowerCase userQuery) (js word) = true <-> mentions word userQuery.
Proof. apply includes_spec. Qed.

(** C3. [classifyQuery] lower-cases the query and tries the three phrase sets
    in the order simple, brief-show, detailed; the first set with a phrase
    occurring in the query decides, and no match gives auto-decide.  So every
    query containing [how many] is classified no-sidebar, and so is a query
    matching both the simple set and the brief-show set. *)
Theorem classifyQuery_first_match (userQuery : jsstring) :
  (matches simpleQueries userQuery -> classifyQuery userQuery = NoSidebar) /\
  (~ matches simpleQueries userQuery -> matches briefShowQueries userQuery ->
   classifyQuery userQuery = BriefShow) /\
  (~ matches simpleQueries userQuery -> ~ matches briefShowQueries userQuery ->
   matches detailedQueries userQuery -> classifyQuery userQuery = ShowSidebar) /\
  (~ matches simpleQueries userQuery -> ~ matches briefShowQueries userQuery ->
   ~ matches detailedQueries userQuery -> classifyQuery userQuery = AutoDecide) /\
  (occursIn (js "how many") userQuery -> classifyQuery userQuery = NoSidebar) /\
  (matches simpleQueries userQuery -> matches briefShowQueries userQuery ->
   classifyQuery userQuery = NoSidebar).
Proof.
  assert (Hsimple : matches simpleQueries userQuery -> classifyQuery userQuery = NoSidebar).
  { intros H. apply matches_some in H. unfold classifyQuery. rewrite H. reflexivity. }
  repeat split.
  - exact Hsimple.
  - intros H1 H2. apply matches_some_false in H1. apply matches_some in H2.
    unfold classifyQuery. rewrite H1, H2. reflexivity.
  - intros H1 H2 H3. apply matches_some_false in H1, H2. apply matches_some in H3.
    unfold classifyQuery. rewrite H1, H2, H3. reflexivity.
  - intros H1 H2 H3. apply matches_some_false in H1, H2, H3.
    unfold classifyQuery. rewrite H1, H2, H3. reflexivity.
  - intros H. apply Hsimple. exists (js "how many"). split.
    + left. reflexivity.
    + apply occursIn_toLowerCase; [reflexivity | exact H].
  - intros H _. exact (Hsimple H).
Qed.

Lemma classifyQuery_first_match_witness :
  classifyQuery (js "How many users, and who is the highest paid?") = NoSidebar.
Proof.
  apply (classifyQuery_first_match (js "How many users, and who is the highest paid?")).
  - exists (js "how many"). split; [left; reflexivity|].
    apply includes_spec. vm_compute. reflexivity.
  - exists (js "who is"). split; [left; reflexivity|].
    apply includes_spec. vm_compute. reflexivity.
Defined.



(** C7, as the claim has it, fails: a query containing both [country] and
    [department] gets the department list, which is not the country list. *)
Lemma country_and_department_counterexample :
  mentions "country" (js "country and department") /\
  mentions "department" (js "country and department") /\
  generateSuggestions (js "country and department") true = departmentSuggestions /\
  generateSuggestions (js "country and department") true <> countrySuggestions.
Proof.
  split; [apply mentions_includes; vm_compute; reflexivity|].
  split; [apply mentions_includes; vm_compute; reflexivity|].
  split; [vm_compute; reflexivity|].
  vm_compute. discriminate.
Qed.

(** C7, amended. [generateSuggestions] lower-cases the query and tries, in
    this order: [user] together with [india], [department], [license],
    [country] or [countries], [active]; the first test that succeeds gives
    its list, no success gives the default list, and every list has three
    items.  A query containing [country] and [department] (and not both
    [user] and [india]) gets the department list. *)
Theorem generateSuggestions_order (userQuery : jsstring) (hasResults : bool) :
  let india := mentions "user" userQuery /\ mentions "india" userQuery in
  let department := mentions "department" userQuery in
  let license := mentions "license" userQuery in
  let country := mentions "country" userQuery \/ mentions "countries" userQuery in
  let active := mentions "active" userQuery in
  let out := generateSuggestions userQuery hasResults in
  length out = 3 /\
  (india -> out = indiaSuggestions) /\
  (~ india -> department -> out = departmentSuggestions) /\
  (~ india -> ~ department -> license -> out = licenseSuggestions) /\
  (~ india -> ~ department -> ~ license -> country -> out = countrySuggestions) /\
  (~ india -> ~ department -> ~ license -> ~ country -> active ->
   out = activeSuggestions) /\
  (~ india -> ~ department -> ~ license -> ~ country -> ~ active ->
   out = defaultSuggestions) /\
  (~ india -> mentions "country" userQuery -> department ->
   out = departmentSuggestions).
Proof.
  cbv zeta. unfold generateSuggestions.
  rewrite <- !mentions_includes.
  destruct (includes (toLowerCase userQuery) (js "user"));
  destruct (includes (toLowerCase userQuery) (js "india"));
  destruct (includes (toLowerCase userQuery) (js "department"));
  destruct (includes (toLowerCase userQuery) (js "license"));
  destruct (includes (toLowerCase userQuery) (js "country"));
  destruct (includes (toLowerCase userQuery) (js "countries"));
  destruct (includes (toLowerCase userQuery) (js "active"));
  cbn [andb orb];
  (split; [reflexivity|]);
  repeat split; intros; try reflexivity; exfalso; intuition congruence.
Qed.

Lemma generateSuggestions_order_witness :
  generateSuggestions (js "Users per country and department") false = departmentSuggestions.
Proof.
  apply (generateSuggestions_order (js "Users per country and department") false).
  - intros [_ H]. apply mentions_includes in H. vm_compute in H. discriminate.
  - apply mentions_includes. vm_compute. reflexivity.
  - apply mentions_includes. vm_compute. reflexivity.
Defined.

(** * The progressive text renderer *)

Section Typewriter.

Import TypewriterText.

Variable text : jsstring.

(** From index [i] on, with the interval set: the remaining [k] prefixes are
    shown, then one more tick clears the interval and calls back. *)
Lemma run_from (k i : nat) (d : jsstring) (due : Z) (fuel : nat) :
  i + k = length text -> k < fuel ->
  run fuel text (mk d i (Some due)) =
    (List.map (slice0 text) (seq (S i) k), 1,
     mk (match k with O => d | S _ => text end) (length text) None).
Proof.
  revert i d due fuel. induction k as [|k IH]; intros i d due fuel Hik Hfuel.
  - destruct fuel as [|fuel]; [lia|].
    assert (i = length text) as -> by lia.
    cbn [run intervalRef tick currentIndex displayText].
    rewrite Nat.ltb_irrefl. destruct fuel; reflexivity.
  - destruct fuel as [|fuel]; [lia|].
    cbn [run intervalRef tick currentIndex displayText].
    assert (Hlt : (i <? length text) = true) by (apply Nat.ltb_lt; lia).
    rewrite Hlt. rewrite Nat.add_1_r.
    rewrite (IH (S i) (slice0 text (S i)) (due + speed)%Z fuel) by lia.
    cbn [displayText seq List.map]. f_equal. f_equal.
    destruct k; [|reflexivity].
    unfold slice0. assert (S i = length text) as -> by lia.
    apply firstn_all.
Qed.

Lemma reveal_nonempty (now : Z) (fuel : nat) :
  text <> [] -> length text < fuel ->
  reveal fuel now text =
    (List.map (slice0 text) (seq 1 (length text)), 1, mk text (length text) None).
Proof.
  intros Hne Hfuel. unfold reveal, mount.
  destruct text as [|c rest] eqn:E; [congruence|]. rewrite <- E in *.
  replace (isEmpty text) with false by (rewrite E; reflexivity).
  rewrite (run_from (length text) 0 [] (now + speed)%Z fuel) by lia.
  rewrite E. reflexivity.
Qed.

End Typewriter.

Lemma reveal_empty (now : Z) (fuel : nat) :
  TypewriterText.reveal fuel now [] = ([], 0, TypewriterText.mk [] 0 None).
Proof. destruct fuel; reflexivity. Qed.

(** C4, as the claim has it, fails at the empty text: whatever the number of
    ticks allowed, the completion callback is not called. *)
Lemma empty_text_never_completes : ~ revealsAndCompletes [].
Proof.
  intros [n H]. destruct (H n 0%Z (le_n n)) as [_ Hcalls].
  rewrite reveal_empty in Hcalls. discriminate.
Qed.

(** C4, amended. For a text of length L >= 1 the renderer shows exactly the L
    prefixes of length 1 to L, the last being the whole text, then clears its
    interval and calls the completion callback, once.  For the empty text the
    effect returns at once: no interval, no display state, and the completion
    callback is never called. *)
Theorem typewriter_reveal (text : jsstring) (now : Z) (fuel : nat) :
  (text <> [] -> length text < fuel ->
   TypewriterText.reveal fuel now text =
     (List.map (slice0 text) (seq 1 (length text)), 1,
      TypewriterText.mk text (length text) None)) /\
  (text = [] ->
   TypewriterText.reveal fuel now text = ([], 0, TypewriterText.mk [] 0 None)).
Proof.
  split.
  - apply reveal_nonempty.
  - intros ->. apply reveal_empty.
Qed.

Lemma typewriter_reveal_witness :
  TypewriterText.reveal 9 0 (js "Hello") =
    ([js "H"; js "He"; js "Hel"; js "Hell"; js "Hello"], 1,
     TypewriterText.mk (js "Hello") 5 None).
Proof.
  apply (typewriter_reveal (js "Hello") 0 9).
  - discriminate.
  - vm_compute. lia.
Defined.

(** * The CSV export *)

Section CsvFacts.

Import Csv.

Lemma unquoteBody_doubleQuotes (text : jsstring) :
  unquoteBody (doubleQuotes text ++ [quote]) = Some text.
Proof.
  induction text as [|c text IH]; [reflexivity|].
  cbn [doubleQuotes flat_map]. fold (doubleQuotes text).
  destruct (Ascii.eqb c quote) eqn:E.
  - apply Ascii.eqb_eq in E. subst c.
    cbn [app unquoteBody]. change (Ascii.eqb quote quote) with true. cbn iota.
    rewrite IH. reflexivity.
  - cbn [app unquoteBody]. rewrite E, IH. reflexivity.
Qed.

(** Reading a quoted field back gives the text that was quoted. *)
Lemma unquote_quoted (text : jsstring) : unquote (quoted text) = Some text.
Proof.
  unfold unquote, quoted. change (Ascii.eqb quote quote) with true. cbn iota.
  apply unquoteBody_doubleQuotes.
Qed.

Lemma sanitize_nth (title : jsstring) (i : nat) :
  nth_error (sanitize title) i =
  option_map (fun c => if isAlnum c then c else underscore) (nth_error title i).
Proof. unfold sanitize. apply nth_error_map. Qed.

Lemma traverse_Forall2 {A B : Type} (f : A -> option B) (l : list A) (ys : list B) :
  traverse f l = Some ys <-> Forall2 (fun x y => f x = Some y) l ys.
Proof.
  revert ys. induction l as [|x l IH]; intros ys; cbn [traverse].
  - split; [intros [= <-]; constructor | intros H; inversion H; reflexivity].
  - destruct (f x) as [y|] eqn:Ex.
    + destruct (traverse f l) as [ys'|].
      * split.
        -- intros [= <-]. constructor; [exact Ex | apply IH; reflexivity].
        -- intros H. inversion H as [|x0 y0 l0 ys0 Hy Hrest]; subst.
           rewrite Ex in Hy. injection Hy as <-.
           apply IH in Hrest. injection Hrest as <-. reflexivity.
      * split; [discriminate|].
        intros H. inversion H as [|x0 y0 l0 ys0 Hy Hrest]; subst.
        apply IH in Hrest. discriminate.
    + split; [discriminate|].
      intros H. inversion H as [|x0 y0 l0 ys0 Hy Hrest]; subst. congruence.
Qed.

Lemma traverse_None {A B : Type} (f : A -> option B) (l : list A) :
  traverse f l = None <-> exists x, In x l /\ f x = None.
Proof.
  induction l as [|x l IH]; cbn [traverse].
  - split; [discriminate | intros (x & [] & _)].
  - destruct (f x) as [y|] eqn:Ex.
    + destruct (traverse f l) as [ys|].
      * split; [discriminate|].
        intros (x' & [<- | Hin] & Hx); [congruence|].
        assert (Hn : Some ys = None) by (apply (proj2 IH); exists x'; split; assumption).
        discriminate.
      * split; [|reflexivity]. intros _.
        destruct (proj1 IH eq_refl) as (x' & Hin & Hx).
        exists x'. split; [right; exact Hin | exact Hx].
    + split; [|reflexivity]. intros _. exists x. split; [left; reflexivity | exact Ex].
Qed.

Lemma traverse_length {A B : Type} (f : A -> option B) (l : list A) (ys : list B) :
  traverse f l = Some ys -> length ys = length l.
Proof.
  intros H. apply traverse_Forall2, Forall2_length in H. symmetry. exact H.
Qed.

Lemma traverse_nth {A B : Type} (f : A -> option B) (l : list A) (ys : list B) (i : nat) :
  traverse f l = Some ys ->
  (forall x, nth_error l i = Some x ->
     exists y, f x = Some y /\ nth_error ys i = Some y) /\
  (forall y, nth_error ys i = Some y ->
     exists x, nth_error l i = Some x /\ f x = Some y).
Proof.
  intros H. apply traverse_Forall2 in H. revert i.
  induction H as [|x y l ys Hxy _ IH]; intros i.
  - split; intros z Hz; destruct i; discriminate.
  - destruct i as [|i]; cbn [nth_error].
    + split; [intros x' [= <-]; eauto | intros y' [= <-]; eauto].
    + apply IH.
Qed.

(** A line of the export: the cell texts of the row, quoted and joined. *)
Lemma rowLine_Some (proto : Row) (cols : list jsstring) (row : Row) (line : jsstring) :
  rowLine proto cols row = Some line <->
  exists cells,
    Forall2 (fun col cell => cellText proto row col = Some cell) cols cells /\
    line = join [comma] (List.map quoted cells).
Proof.
  unfold rowLine. destruct (traverse (cellText proto row) cols) as [cells|] eqn:E.
  - cbn [option_map]. split.
    + intros [= <-]. exists cells. split; [apply traverse_Forall2; exact E | reflexivity].
    + intros (cells' & H & ->). apply traverse_Forall2 in H.
      rewrite E in H. injection H as <-. reflexivity.
  - cbn [option_map]. split; [discriminate|].
    intros (cells' & H & _). apply traverse_Forall2 in H. congruence.
Qed.

Lemma rowLine_None (proto : Row) (cols : list jsstring) (row : Row) :
  rowLine proto cols row = None <->
  exists col, In col cols /\ cellText proto row col = None.
Proof.
  unfold rowLine. rewrite <- traverse_None.
  destruct (traverse (cellText proto row) cols); cbn [option_map];
    split; congruence.
Qed.

Lemma insertIndex_Permutation (i : N) (k : jsstring) (l : list (N * jsstring)) :
  Permutation (List.map snd (insertIndex i k l)) (k :: List.map snd l).
Proof.
  induction l as [|[j k'] l IH]; cbn [insertIndex]; [reflexivity|].
  destruct (i <? j)%N; [reflexivity|].
  cbn [List.map snd]. rewrite IH. apply perm_swap.
Qed.

(** [Object.keys] lists the own keys, each once for each time it is held. *)
Lemma keys_Permutation (row : Row) : Permutation (keys row) (List.map fst row).
Proof.
  unfold keys. induction row as [|[k v] row IH]; [reflexivity|].
  cbn [indexKeys nameKeys List.map fst]. destruct (arrayIndex k) as [i|].
  - rewrite insertIndex_Permutation. cbn [app]. apply perm_skip. exact IH.
  - rewrite <- Permutation_middle. apply perm_skip. exact IH.
Qed.

(** Without array indices among them, they come in the order of creation. *)
Lemma keys_names (row : Row) :
  Forall (fun k => arrayIndex k = None) (List.map fst row) ->
  keys row = List.map fst row.
Proof.
  unfold keys. induction row as [|[k v] row IH]; [reflexivity|].
  cbn [List.map fst]. intros H. inversion H as [|k0 l0 Hk Hrest]; subst.
  cbn [indexKeys nameKeys]. rewrite Hk.
  specialize (IH Hrest).
  destruct (indexKeys row) as [|e l] eqn:E.
  - cbn [List.map app] in *. rewrite IH. reflexivity.
  - exfalso. clear IH H Hk. revert e l E.
    induction row as [|[k' v'] row IH]; intros e l E; [discriminate|].
    cbn [List.map fst] in Hrest. inversion Hrest as [|k0 l0 Hk' Hrest']; subst.
    cbn [indexKeys] in E. rewrite Hk' in E. exact (IH Hrest' e l E).
Qed.

(** The array indices come first, in ascending order. *)
Lemma insertIndex_sorted (i : N) (k : jsstring) (l : list (N * jsstring)) :
  StronglySorted N.le (List.map fst l) ->
  StronglySorted N.le (List.map fst (insertIndex i k l)).
Proof.
  induction l as [|[j k'] l IH]; cbn [insertIndex List.map fst]; intros H.
  - constructor; constructor.
  - inversion H as [|j0 l0 Hs Hall]; subst.
    destruct (i <? j)%N eqn:E; cbn [List.map fst].
    + apply N.ltb_lt in E. constructor; [exact H|].
      constructor; [lia|].
      apply List.Forall_forall. intros x Hx.
      pose proof (proj1 (List.Forall_forall _ _) Hall x Hx). cbn beta in *. lia.
    + apply N.ltb_ge in E. constructor; [apply IH; exact Hs|].
      apply List.Forall_forall. intros x Hx.
      assert (Hp : Permutation (List.map fst (insertIndex i k l)) (i :: List.map fst l)).
      { clear. induction l as [|[j' k''] l IH]; cbn [insertIndex]; [reflexivity|].
        destruct (i <? j')%N; [reflexivity|].
        cbn [List.map fst]. rewrite IH. apply perm_swap. }
      apply (Permutation_in _ Hp) in Hx. destruct Hx as [<- | Hx]; [exact E|].
      exact (proj1 (List.Forall_forall _ _) Hall x Hx).
Qed.

Lemma indexKeys_sorted (row : Row) :
  StronglySorted N.le (List.map fst (indexKeys row)).
Proof.
  induction row as [|[k v] row IH]; cbn [indexKeys]; [constructor|].
  destruct (arrayIndex k); [apply insertIndex_sorted|]; exact IH.
Qed.

Lemma indexKeys_index (row : Row) (i : N) (k : jsstring) :
  In (i, k) (indexKeys row) -> arrayIndex k = Some i.
Proof.
  induction row as [|[k' v] row IH]; cbn [indexKeys]; [intros []|].
  destruct (arrayIndex k') as [j|] eqn:E; [|exact IH].
  intros H.
  assert (Hin : (i, k) = (j, k') \/ In (i, k) (indexKeys row)).
  { clear -H. induction (indexKeys row) as [|[j' k''] l IHl]; cbn [insertIndex] in H.
    - destruct H as [H | []]. left. symmetry. exact H.
    - destruct (j <? j')%N.
      + destruct H as [H | H]; [left; symmetry; exact H | right; exact H].
      + destruct H as [H | H]; [right; left; exact H|].
        destruct (IHl H) as [H' | H']; [left; exact H' | right; right; exact H']. }
  destruct Hin as [[= -> ->] | Hin]; [exact E | exact (IH Hin)].
Qed.

Lemma nameKeys_name (row : Row) (k : jsstring) :
  In k (nameKeys row) -> arrayIndex k = None.
Proof.
  induction row as [|[k' v] row IH]; cbn [nameKeys]; [intros []|].
  destruct (arrayIndex k') eqn:E; [exact IH|].
  intros [<- | H]; [exact E | exact (IH H)].
Qed.

(** A filter that keeps the separator and the characters of the items keeps
    the joined text. *)
Lemma filter_join (p : ascii -> bool) (sep : jsstring) (l : list jsstring) :
  List.filter p sep = sep ->
  Forall (fun x => List.filter p x = x) l ->
  List.filter p (join sep l) = join sep l.
Proof.
  intros Hsep H. induction H as [|x l Hx _ IH]; [reflexivity|].
  destruct l as [|y l]; [exact Hx|].
  change (join sep (x :: y :: l)) with (x ++ sep ++ join sep (y :: l)).
  rewrite !List.filter_app, Hx, Hsep, IH. reflexivity.
Qed.

Lemma filter_no_quote (x : jsstring) :
  ~ In quote x -> List.filter (fun c => negb (Ascii.eqb c quote)) x = x.
Proof.
  induction x as [|c x IH]; [reflexivity|]. intros H. cbn [List.filter].
  destruct (Ascii.eqb c quote) eqn:E.
  - apply Ascii.eqb_eq in E. subst c. exfalso. apply H. left. reflexivity.
  - cbn [negb]. rewrite IH; [reflexivity|]. intros Hin. apply H. right. exact Hin.
Qed.

End CsvFacts.

(** C9, as the claim has it, fails: the file name keeps the length of the
    title, every character that is not a letter or a digit being replaced by
    an underscore, not removed. *)
Lemma csv_filename_counterexample :
  option_map snd (Csv.downloadCSV pagePrototype oneRow (js "Query Results (12 records)")) =
    Some (js "Query_Results__12_records_.csv") /\
  option_map snd (Csv.downloadCSV pagePrototype oneRow (js "Query Results (12 records)")) <>
    Some (Csv.stripped (js "Query Results (12 records)") ++ js ".csv") /\
  Csv.stripped (js "Query Results (12 records)") ++ js ".csv" = js "QueryResults12records.csv".
Proof.
  split; [vm_compute; reflexivity|].
  split; [vm_compute; discriminate|].
  vm_compute. reflexivity.
Qed.

(** C9, amended. The columns are the own keys of the first row as
    [Object.keys] lists them: each key once, array indices first in
    ascending order, the other keys in the order of their creation.  When the
    export does not throw, the exported text is a header line followed by one
    line per payload row, joined by newlines; the header line carries the
    column names, separated by commas (how it quotes them is left open: with
    the quote characters taken out it is the names joined by commas); the
    line of a row has, for each column, the text of the cell between quotes
    with the inner quotes doubled, so that reading the field back gives the
    text, the fields being joined by commas.  The text of a cell is that of
    [String(row[col] || '')]: the property is looked up in the row, then in
    its prototype; the text is empty when there is none or when its value is
    falsy.  The export throws exactly when [String] throws on a cell.  The
    file name is the title with every character other than a letter or a
    digit replaced by an underscore, followed by [.csv]. *)
Theorem csv_export (objectPrototype : Csv.Row) (data : list Csv.Row) (title : jsstring) :
  Csv.columns data = match data with [] => [] | first :: _ => Csv.keys first end /\
  (forall row : Csv.Row,
     Permutation (Csv.keys row) (List.map fst row) /\
     Csv.keys row = List.map snd (Csv.indexKeys row) ++ Csv.nameKeys row /\
     StronglySorted N.le (List.map fst (Csv.indexKeys row)) /\
     (forall i k, In (i, k) (Csv.indexKeys row) -> Csv.arrayIndex k = Some i) /\
     (forall k, In k (Csv.nameKeys row) -> Csv.arrayIndex k = None) /\
     (Forall (fun k => Csv.arrayIndex k = None) (List.map fst row) ->
      Csv.keys row = List.map fst row)) /\
  (forall content name,
     Csv.downloadCSV objectPrototype data title = Some (content, name) ->
     exists header lines,
       content = join [Csv.newline] (header :: lines) /\
       (Forall (fun col => ~ In Csv.quote col) (Csv.columns data) ->
        List.filter (fun c => negb (Ascii.eqb c Csv.quote)) header =
          join [Csv.comma] (Csv.columns data)) /\
       length lines = length data /\
       (forall i row, nth_error data i = Some row ->
          exists cells,
            Forall2 (fun col cell => Csv.cellText objectPrototype row col = Some cell)
                    (Csv.columns data) cells /\
            nth_error lines i = Some (join [Csv.comma] (List.map Csv.quoted cells))) /\
       name = Csv.sanitize title ++ js ".csv") /\
  (Csv.downloadCSV objectPrototype data title = None <->
   exists row col, In row data /\ In col (Csv.columns data) /\
                   Csv.cellText objectPrototype row col = None) /\
  (forall row col,
     Csv.cellText objectPrototype row col =
       match Csv.own row col, Csv.own objectPrototype col with
       | Some v, _ | None, Some v => if Csv.truthy v then Csv.toString v else Some []
       | None, None => Some []
       end) /\
  (forall text, Csv.quoted text = Csv.quote :: Csv.doubleQuotes text ++ [Csv.quote] /\
                Csv.unquote (Csv.quoted text) = Some text) /\
  length (Csv.sanitize title) = length title /\
  (forall i c, nth_error title i = Some c ->
     nth_error (Csv.sanitize title) i = Some (if Csv.isAlnum c then c else Csv.underscore)).
Proof.
  split; [destruct data; reflexivity|].
  split.
  { intros row. split; [apply keys_Permutation|]. split; [reflexivity|].
    split; [apply indexKeys_sorted|]. split; [apply indexKeys_index|].
    split; [apply nameKeys_name | apply keys_names]. }
  split.
  { intros content name H. unfold Csv.downloadCSV, Csv.csvContent in H.
    destruct (Csv.csvRows objectPrototype data) as [lines|] eqn:E; [|discriminate].
    cbn [option_map] in H. injection H as <- <-.
    exists (join [Csv.comma] (Csv.columns data)), lines.
    split; [reflexivity|].
    split.
    { intros Hq. apply filter_join; [reflexivity|].
      apply List.Forall_forall. intros col Hcol. apply filter_no_quote.
      exact (proj1 (List.Forall_forall _ _) Hq col Hcol). }
    split; [exact (traverse_length _ _ _ E)|].
    split; [|reflexivity].
    intros i row Hrow.
    destruct (proj1 (traverse_nth _ _ _ i E) row Hrow) as (line & Hline & Hnth).
    apply rowLine_Some in Hline. destruct Hline as (cells & Hcells & ->).
    exists cells. split; assumption. }
  split.
  { unfold Csv.downloadCSV, Csv.csvContent.
    destruct (Csv.csvRows objectPrototype data) as [lines|] eqn:E; cbn [option_map].
    - split; [discriminate|]. intros (row & col & Hrow & Hcol & Hcell). exfalso.
      assert (Hn : Csv.csvRows objectPrototype data = None); [|congruence].
      apply traverse_None. exists row. split; [exact Hrow|].
      apply rowLine_None. exists col. split; assumption.
    - split; [|reflexivity]. intros _.
      apply traverse_None in E. destruct E as (row & Hrow & Hline).
      apply rowLine_None in Hline. destruct Hline as (col & Hcol & Hcell).
      exists row, col. repeat split; assumption. }
  split.
  { intros row col. unfold Csv.cellText, Csv.get.
    destruct (Csv.own row col); [reflexivity|].
    destruct (Csv.own objectPrototype col); reflexivity. }
  split; [intros text; split; [reflexivity | apply unquote_quoted]|].
  split; [unfold Csv.sanitize; apply length_map|].
  intros i c H. rewrite sanitize_nth, H. reflexivity.
Qed.

Lemma csv_export_witness :
  exists header lines,
    js "constructor,name" ++ [Csv.newline] ++
      Csv.quoted (js "x") ++ [Csv.comma] ++ Csv.quoted (js "a") ++ [Csv.newline] ++
      Csv.quoted (js "function Object() { [native code] }") ++ [Csv.comma] ++
      Csv.quoted (js "b") =
      join [Csv.newline] (header :: lines) /\
    (Forall (fun col => ~ In Csv.quote col) (Csv.columns mixedRows) ->
     List.filter (fun c => negb (Ascii.eqb c Csv.quote)) header =
       join [Csv.comma] (Csv.columns mixedRows)) /\
    length lines = length mixedRows /\
    (forall i row, nth_error mixedRows i = Some row ->
       exists cells,
         Forall2 (fun col cell => Csv.cellText pagePrototype row col = Some cell)
                 (Csv.columns mixedRows) cells /\
         nth_error lines i = Some (join [Csv.comma] (List.map Csv.quoted cells))) /\
    js "Top_5_users_.csv" = Csv.sanitize (js "Top 5 users!") ++ js ".csv".
Proof.
  apply (proj1 (proj2 (proj2 (csv_export pagePrototype mixedRows (js "Top 5 users!"))))).
  vm_compute. reflexivity.
Defined.

(** * The controller *)

Lemma mayHappenAt_now (s : State) (t : Z) :
  mayHappenAt s t = true -> (now s <= t)%Z.
Proof. unfold mayHappenAt. rewrite andb_true_iff. intros [H _]. lia. Qed.

Lemma mayHappenAt_timeouts (s : State) (t : Z) (tm : Timeout) :
  mayHappenAt s t = true -> In tm (timeouts s) -> (t <= due tm)%Z.
Proof.
  unfold mayHappenAt, pendingDues. rewrite andb_true_iff, forallb_forall.
  intros [_ H] Hin. apply Z.leb_le. apply H.
  apply in_or_app. right. apply in_or_app. right. apply in_map. exact Hin.
Qed.

(** ** Rendering and saving leave the controller state alone *)

Lemma commit_messages (s : State) : messages (commit s) = messages s.
Proof. reflexivity. Qed.

Lemma commit_request (s : State) : request (commit s) = request s.
Proof. reflexivity. Qed.

Lemma commit_sidebarData (s : State) : sidebarData (commit s) = sidebarData s.
Proof. reflexivity. Qed.

Lemma commit_sidebarShown (s : State) : sidebarShown (commit s) = sidebarShown s.
Proof. reflexivity. Qed.

Lemma commit_timeouts (s : State) : timeouts (commit s) = timeouts s.
Proof. reflexivity. Qed.

Lemma commit_autoCloseTimer (s : State) : autoCloseTimer (commit s) = autoCloseTimer s.
Proof. reflexivity. Qed.

Lemma commit_now (s : State) : now (commit s) = now s.
Proof. reflexivity. Qed.

Lemma commit_storage (s : State) :
  storage (commit s) = Store.saveMessages (storage s) (messages s).
Proof. reflexivity. Qed.

(** ** What a step is made of *)

Lemma exec_TextTick (s s' : State) (pos : nat) :
  exec s (TextTick pos) = Some s' ->
  exists c m d,
    typewriters s !! pos = Some (Some c) /\ messages s !! pos = Some m /\
    TypewriterText.intervalRef c = Some d /\ mayHappenAt s d = true /\
    let s1 := setTypewriters
                (<[pos := Some (fst (TypewriterText.tick (message m) c))]> (typewriters s))
                (setNow d s) in
    s' = if snd (TypewriterText.tick (message m) c)
         then commit (handleTypingComplete capturedSidebarData (id m) s1)
         else s1.
Proof.
  unfold exec.
  destruct (typewriters s !! pos) as [[c|]|] eqn:Hc; try discriminate.
  destruct (messages s !! pos) as [m|] eqn:Hm; try discriminate.
  destruct (TypewriterText.intervalRef c) as [d|] eqn:Hd; try discriminate.
  destruct (mayHappenAt s d) eqn:Hg; try discriminate.
  destruct (TypewriterText.tick (message m) c) as [c' completed] eqn:Ht.
  intros H. injection H as <-. exists c, m, d. rewrite Ht. cbn [fst snd].
  repeat split; reflexivity || assumption.
Qed.

Lemma exec_RowTick (s s' : State) :
  exec s RowTick = Some s' ->
  exists a d,
    table s = Some a /\ AnimatedTable.interval a = Some d /\ mayHappenAt s d = true /\
    let s1 := setTable (Some (fst (AnimatedTable.tick a))) (setNow d s) in
    s' = if snd (AnimatedTable.tick a) && sidebarTyping s1
         then render (setSidebarTyping false s1)
         else s1.
Proof.
  unfold exec.
  destruct (table s) as [a|] eqn:Ha; try discriminate.
  destruct (AnimatedTable.interval a) as [d|] eqn:Hd; try discriminate.
  destruct (mayHappenAt s d) eqn:Hg; try discriminate.
  destruct (AnimatedTable.tick a) as [a' completed] eqn:Ht.
  intros H. injection H as <-. exists a, d. rewrite Ht. cbn [fst snd].
  repeat split; reflexivity || assumption.
Qed.

Lemma exec_Fire (s s' : State) (timer : nat) :
  exec s (Fire timer) = Some s' ->
  exists tm,
    List.find (fun t => handle t =? timer) (timeouts s) = Some tm /\
    mayHappenAt s (due tm) = true /\
    let s1 := clearTimeout timer (setNow (due tm) s) in
    s' = render (match callback tm with
                 | AutoClose => autoClose s1
                 | StartTable => setSidebarTyping true s1
                 end).
Proof.
  unfold exec.
  destruct (List.find _ (timeouts s)) as [tm|] eqn:Hf; try discriminate.
  destruct (mayHappenAt s (due tm)) eqn:Hg; try discriminate.
  intros H. injection H as <-. exists tm. repeat split; reflexivity || assumption.
Qed.

Lemma exec_At (s s' : State) (t : Z) (e : Event) :
  exec s (At t e) = Some s' ->
  mayHappenAt s t = true /\ handle_event e (setNow t s) = Some s'.
Proof.
  unfold exec. destruct (mayHappenAt s t); [auto | discriminate].
Qed.

(** What [sendMessage] does when it does not return early. *)
Lemma sendMessage_Some (messageToSend : option jsstring) (s s1 : State) :
  sendMessage messageToSend s = Some s1 ->
  exists actualMessage,
    isEmpty (trim actualMessage) = false /\ isLoading s = false /\
    messages s1 =
      messages s ++ [mkMessage (now s) user actualMessage (now s) false None None None] /\
    request s1 = Some actualMessage /\ sidebarData s1 = None /\
    isLoading s1 = true /\ now s1 = now s /\ storage s1 = storage s /\
    typewriters s1 = typewriters s /\
    timeouts s1 = match autoCloseTimer s with
                  | Some timer =>
                      List.filter (fun t => negb (handle t =? timer)) (timeouts s)
                  | None => timeouts s
                  end.
Proof.
  unfold sendMessage.
  set (actualMessage := match messageToSend with
                        | Some m => if isEmpty m then inputMessage s else m
                        | None => inputMessage s
                        end).
  destruct (isEmpty (trim actualMessage)) eqn:He; [discriminate|].
  destruct (isLoading s) eqn:Hl; [discriminate|].
  cbn [orb]. intros H. injection H as <-. exists actualMessage.
  split; [exact He|]. split; [reflexivity|].
  cbn. destruct (autoCloseTimer s); cbn; repeat split; reflexivity.
Qed.

(** What the part of [sendMessage] after [await] does. *)
Lemma sendMessage_resolved_spec (q : jsstring) (r : Backend.Response) (s : State) :
  (exists m, messages (sendMessage_resolved q r s) = messages s ++ [m] /\
             type m = bot /\ isTyping m = true /\
             message m = match Backend.message r with
                         | None => fallbackText
                         | Some text =>
                             if isEmpty text || isEmpty (trim text) then fallbackText else text
                         end) /\
  request (sendMessage_resolved q r s) = None /\
  isLoading (sendMessage_resolved q r s) = false /\
  now (sendMessage_resolved q r s) = now s /\
  storage (sendMessage_resolved q r s) = storage s /\
  typewriters (sendMessage_resolved q r s) = typewriters s /\
  sidebarShown (sendMessage_resolved q r s) = showsPanel q (rowsOf r) /\
  timeouts (sendMessage_resolved q r s) =
    (if showsPanel q (rowsOf r) && Behavior_eqb (classifyQuery q) BriefShow
     then timeouts s ++ [mkTimeout (nextTimer s) (now s + 5000)%Z AutoClose]
     else timeouts s) /\
  autoCloseTimer (sendMessage_resolved q r s) =
    (if showsPanel q (rowsOf r) && Behavior_eqb (classifyQuery q) BriefShow
     then Some (nextTimer s)
     else autoCloseTimer s).
Proof.
  unfold sendMessage_resolved, showsPanel, rowsOf.
  set (rows := match Backend.results r with Some l => l | None => [] end).
  set (art := shouldShowArtifact q rows).
  destruct (0 <? length rows); destruct (classifyQuery q);
    destruct (length rows <=? 10); destruct art; cbn -[generateSuggestions titleOf trim];
    (split; [eexists; repeat split; reflexivity | repeat split; reflexivity]).
Qed.

Lemma sendMessage_rejected_spec (errorText : jsstring) (s : State) :
  let s1 := sendMessage_rejected errorText s in
  (exists m, messages s1 = messages s ++ [m] /\ type m = bot /\ isTyping m = true) /\
  request s1 = None /\ isLoading s1 = false /\ now s1 = now s /\
  storage s1 = storage s /\ typewriters s1 = typewriters s /\
  sidebarData s1 = sidebarData s /\ timeouts s1 = timeouts s /\
  autoCloseTimer s1 = autoCloseTimer s.
Proof.
  cbn. split; [eexists; repeat split; reflexivity | repeat split; reflexivity].
Qed.

(** ** The pending timeouts *)

(** [init] ends with a test on what was just stored; the three outcomes
    differ in [showInitialSuggestions] only. *)
Ltac init_cases :=
  unfold init;
  match goal with
  | |- context [Store.getStoredData ?ls ?k ?d] =>
      let l := fresh "l" in
      destruct (Store.getStoredData ls k d) as [l|]; [destruct (1 <? length l)|]
  end;
  reflexivity.

Lemma timersOk_init (ls : gmap string Store.Item) (t : Z) : timersOk (init ls t).
Proof. left. init_cases. Qed.

Lemma filter_single_handle (timer : nat) (d : Z) (cb : TimeoutKind) :
  List.filter (fun t => negb (handle t =? timer)) [mkTimeout timer d cb] = [].
Proof. cbn. rewrite Nat.eqb_refl. reflexivity. Qed.

Lemma timersOk_cleared (s : State) :
  timersOk s ->
  match autoCloseTimer s with
  | Some timer => List.filter (fun t => negb (handle t =? timer)) (timeouts s)
  | None => timeouts s
  end = [].
Proof.
  intros [H | [_ [timer [d [H Ha]]]]].
  - rewrite H. destruct (autoCloseTimer s); reflexivity.
  - rewrite Ha, H. apply filter_single_handle.
Qed.

Lemma exec_timersOk (s s' : State) (l : Label) :
  timersOk s -> exec s l = Some s' -> timersOk s'.
Proof.
  intros Hok Hex. destruct l as [pos| |timer|t e].
  - apply exec_TextTick in Hex as (c & m & d & _ & _ & _ & _ & ->).
    destruct (snd _); exact Hok.
  - apply exec_RowTick in Hex as (a & d & _ & _ & _ & ->).
    destruct (_ && _); exact Hok.
  - apply exec_Fire in Hex as (tm & Hf & _ & ->).
    left. destruct Hok as [H | [_ [k [d [H _]]]]].
    + rewrite H in Hf. discriminate.
    + rewrite H in Hf. cbn in Hf.
      destruct (k =? timer) eqn:E; [|discriminate].
      apply Nat.eqb_eq in E. subst k.
      destruct (callback tm); cbn; rewrite H; apply filter_single_handle.
  - apply exec_At in Hex as [_ Hex]. destruct e; cbn in Hex.
    + destruct (sendMessage messageToSend (setNow t s)) as [s1|] eqn:Hs.
      * injection Hex as <-. apply sendMessage_Some in Hs
          as (q & _ & _ & _ & _ & _ & _ & _ & _ & _ & Ht).
        left. cbn. rewrite Ht. apply (timersOk_cleared s Hok).
      * injection Hex as <-. exact Hok.
    + destruct (request s) as [q|] eqn:Hq; [|discriminate].
      injection Hex as <-.
      destruct Hok as [H | [Hr _]]; [|cbn in Hq; congruence].
      destruct (sendMessage_resolved_spec q response (setNow t s))
        as (_ & Hr & _ & _ & _ & _ & _ & Ht & Ha).
      unfold timersOk. rewrite commit_timeouts, commit_request, commit_autoCloseTimer.
      rewrite Hr, Ht, Ha. cbn [timeouts setNow]. rewrite H.
      destruct (_ && _); [right | left; reflexivity].
      split; [reflexivity|]. eauto.
    + destruct (request s) as [q|] eqn:Hq; [|discriminate].
      injection Hex as <-.
      destruct Hok as [H | [Hr _]]; [|cbn in Hq; congruence]. left. exact H.
    + destruct (isLoading s); [discriminate|].
      destruct (Csv.jsstring_eqb _ _); injection Hex as <-; exact Hok.
    + destruct (sidebarData s); [|discriminate]. injection Hex as <-.
      left. unfold closeSidebar. cbn.
      pose proof (timersOk_cleared s Hok) as Hc.
      destruct (autoCloseTimer s); cbn; exact Hc.
    + destruct (sidebarData s) as [d|]; [|discriminate].
      destruct (Sidebar.showArtifact d); [|discriminate].
      injection Hex as <-. exact Hok.
Qed.

Lemma run_timersOk (trace : list Label) (s s' : State) :
  timersOk s -> run s trace = Some s' -> timersOk s'.
Proof.
  revert s. induction trace as [|l trace IH]; intros s Hok; cbn.
  - intros H. injection H as <-. exact Hok.
  - destruct (exec s l) as [s1|] eqn:E; [|discriminate].
    apply IH. exact (exec_timersOk s s1 l Hok E).
Qed.

Lemma reachable_timersOk (s : State) : reachable s -> timersOk s.
Proof.
  intros (ls0 & t0 & trace & H).
  exact (run_timersOk trace _ _ (timersOk_init ls0 t0) H).
Qed.

(** ** Every step happens at a time the pending timers allow *)

Lemma handle_event_now (e : Event) (s s' : State) :
  handle_event e s = Some s' -> now s' = now s.
Proof.
  destruct e; cbn.
  - destruct (sendMessage messageToSend s) as [s1|] eqn:Hs; intros H; injection H as <-.
    + apply sendMessage_Some in Hs as (q & _ & _ & _ & _ & _ & _ & Hn & _). exact Hn.
    + reflexivity.
  - destruct (request s) as [q|]; [|discriminate]. intros H; injection H as <-.
    destruct (sendMessage_resolved_spec q response s) as (_ & _ & _ & Hn & _).
    rewrite commit_now. exact Hn.
  - destruct (request s); [|discriminate]. intros H; injection H as <-. reflexivity.
  - destruct (isLoading s); [discriminate|].
    destruct (Csv.jsstring_eqb _ _); intros H; injection H as <-; reflexivity.
  - destruct (sidebarData s); [|discriminate]. intros H; injection H as <-.
    unfold closeSidebar. cbn. destruct (autoCloseTimer s); reflexivity.
  - destruct (sidebarData s) as [d|]; [|discriminate].
    destruct (Sidebar.showArtifact d); [|discriminate].
    intros H; injection H as <-. reflexivity.
Qed.

Lemma exec_now (s s' : State) (l : Label) :
  exec s l = Some s' -> mayHappenAt s (now s') = true.
Proof.
  intros Hex. destruct l as [pos| |timer|t e].
  - apply exec_TextTick in Hex as (c & m & d & _ & _ & _ & Hg & ->).
    destruct (snd _); exact Hg.
  - apply exec_RowTick in Hex as (a & d & _ & _ & Hg & ->).
    destruct (_ && _); exact Hg.
  - apply exec_Fire in Hex as (tm & _ & Hg & ->).
    destruct (callback tm); exact Hg.
  - apply exec_At in Hex as [Hg Hex]. apply handle_event_now in Hex.
    rewrite Hex. exact Hg.
Qed.

Lemma exec_now_le (s s' : State) (l : Label) :
  exec s l = Some s' -> (now s <= now s')%Z.
Proof. intros H. apply mayHappenAt_now. exact (exec_now s s' l H). Qed.

(** The ticks of the two renderers leave the request, the sidebar payload and
    the timeouts alone. *)
Lemma exec_tick_frame (s s' : State) (l : Label) :
  (exists pos, l = TextTick pos) \/ l = RowTick ->
  exec s l = Some s' ->
  request s' = request s /\ sidebarData s' = sidebarData s /\
  timeouts s' = timeouts s /\ autoCloseTimer s' = autoCloseTimer s.
Proof.
  intros [[pos ->] | ->] Hex.
  - apply exec_TextTick in Hex as (c & m & d & _ & _ & _ & _ & ->).
    destruct (snd _); repeat split; reflexivity.
  - apply exec_RowTick in Hex as (a & d & _ & _ & _ & ->).
    destruct (_ && _); repeat split; reflexivity.
Qed.

(** ** The auto-close timer *)

Lemma armed_step (T : Z) (s s' : State) (l : Label) :
  armed T s -> quietLabel l = true -> exec s l = Some s' ->
  armed T s' \/ closedBy T s'.
Proof.
  intros (Hr & Hshown & (timer & Ht & Ha) & Hnow) Hq Hex.
  assert (Hle : (now s' <= T + 5000)%Z).
  { apply exec_now in Hex.
    apply (mayHappenAt_timeouts s (now s') (mkTimeout timer (T + 5000)%Z AutoClose) Hex).
    rewrite Ht. left. reflexivity. }
  assert (Hframe : request s' = request s /\ sidebarData s' = sidebarData s /\
                   timeouts s' = timeouts s /\ autoCloseTimer s' = autoCloseTimer s ->
                   armed T s').
  { intros (E1 & E2 & E3 & E4). unfold armed, sidebarShown in *.
    rewrite E1, E2, E3, E4. repeat split; eauto. }
  destruct l as [pos| |k|t e].
  - left. apply Hframe. apply (exec_tick_frame s s' (TextTick pos)); eauto.
  - left. apply Hframe. apply (exec_tick_frame s s' RowTick); eauto.
  - right. apply exec_Fire in Hex as (tm & Hf & _ & ->).
    rewrite Ht in Hf. cbn in Hf.
    destruct (timer =? k) eqn:E; [|discriminate].
    apply Nat.eqb_eq in E. subst k. injection Hf as <-.
    unfold closedBy. cbn. rewrite Ht, filter_single_handle.
    repeat split; [exact Hr | lia].
  - apply exec_At in Hex as [_ Hex]. destruct e; cbn in Hex; try discriminate.
    + rewrite Hr in Hex. discriminate.
    + rewrite Hr in Hex. discriminate.
    + left. apply Hframe. destruct (isLoading s); [discriminate|].
      destruct (Csv.jsstring_eqb _ _); injection Hex as <-; repeat split; reflexivity.
    + destruct (sidebarData s) as [d|] eqn:Hd; [|discriminate].
      destruct (Sidebar.showArtifact d); [|discriminate].
      injection Hex as <-. left. apply Hframe.
      repeat split; try reflexivity. exact Hd.
Qed.

Lemma closedBy_step (T : Z) (s s' : State) (l : Label) :
  closedBy T s -> quietLabel l = true -> exec s l = Some s' -> closedBy T s'.
Proof.
  intros (Hr & Hshown & Ht & Hnow) Hq Hex.
  pose proof (exec_now_le s s' l Hex) as Hle.
  assert (Hframe : request s' = request s /\ sidebarData s' = sidebarData s /\
                   timeouts s' = timeouts s /\ autoCloseTimer s' = autoCloseTimer s ->
                   closedBy T s').
  { intros (E1 & E2 & E3 & E4). unfold closedBy, sidebarShown in *.
    rewrite E1, E2, E3. repeat split; auto. lia. }
  destruct l as [pos| |k|t e].
  - apply Hframe. apply (exec_tick_frame s s' (TextTick pos)); eauto.
  - apply Hframe. apply (exec_tick_frame s s' RowTick); eauto.
  - apply exec_Fire in Hex as (tm & Hf & _). rewrite Ht in Hf. discriminate.
  - apply exec_At in Hex as [_ Hex]. destruct e; cbn in Hex; try discriminate.
    + rewrite Hr in Hex. discriminate.
    + rewrite Hr in Hex. discriminate.
    + apply Hframe. destruct (isLoading s); [discriminate|].
      destruct (Csv.jsstring_eqb _ _); injection Hex as <-; repeat split; reflexivity.
    + unfold sidebarShown in Hshown. destruct (sidebarData s); discriminate.
Qed.

Lemma quiet_run (T : Z) (trace : list Label) (s s' : State) :
  forallb quietLabel trace = true -> run s trace = Some s' ->
  (armed T s -> armed T s' \/ closedBy T s') /\ (closedBy T s -> closedBy T s').
Proof.
  revert s. induction trace as [|l trace IH]; intros s Hq Hrun; cbn in Hrun.
  - injection Hrun as <-. auto.
  - cbn in Hq. apply andb_true_iff in Hq as [Hl Hq].
    destruct (exec s l) as [s1|] eqn:E; [|discriminate].
    destruct (IH s1 Hq Hrun) as [IHa IHc]. split.
    + intros Ha. destruct (armed_step T s s1 l Ha Hl E) as [H | H]; auto.
    + intros Hc. apply IHc. exact (closedBy_step T s s1 l Hc Hl E).
Qed.

(** The answer to a brief-show query with rows shows the sidebar and starts
    its timer. *)
Lemma reply_arms (s0 s1 : State) (t : Z) (q : jsstring) (response : Backend.Response) :
  timersOk s0 -> request s0 = Some q ->
  classifyQuery q = BriefShow -> rowsOf response <> [] ->
  exec s0 (At t (Reply response)) = Some s1 ->
  armed t s1.
Proof.
  intros Hok Hq Hb Hrows Hex.
  apply exec_At in Hex as [_ Hex]. cbn in Hex. rewrite Hq in Hex. injection Hex as <-.
  destruct Hok as [H0 | [Hr _]]; [|congruence].
  destruct (sendMessage_resolved_spec q response (setNow t s0))
    as (_ & Hr & _ & Hn & _ & _ & Hs & Ht & Ha).
  assert (Hp : showsPanel q (rowsOf response) = true).
  { unfold showsPanel. rewrite Hb. destruct (rowsOf response); [congruence|].
    reflexivity. }
  unfold armed.
  rewrite commit_request, commit_sidebarShown, commit_timeouts, commit_autoCloseTimer,
    commit_now.
  rewrite Hr, Hs, Ht, Ha, Hn, Hp, Hb. cbn. rewrite H0.
  repeat split; eauto. lia.
Qed.




(** C2, amended. After the answer to a brief-show query with rows, processed
    at time [t], the sidebar is shown; as long as [sendMessage] is not called
    and the close button is not clicked, it stays shown before [t + 5000] and
    is closed after [t + 5000]; at [t + 5000] the timer can fire, and firing
    clears the payload.  A click on the close button or an accepted call of
    [sendMessage] closes the sidebar and removes the timer. *)
Theorem brief_show_closes_5000_after_reply
    (s0 s1 s' : State) (t : Z) (q : jsstring) (response : Backend.Response)
    (trace : list Label) :
  reachable s0 ->
  request s0 = Some q ->
  classifyQuery q = BriefShow ->
  rowsOf response <> [] ->
  exec s0 (At t (Reply response)) = Some s1 ->
  forallb quietLabel trace = true ->
  run s1 trace = Some s' ->
  sidebarShown s1 = true /\ now s1 = t /\
  ((now s' < t + 5000)%Z -> sidebarShown s' = true) /\
  ((t + 5000 < now s')%Z -> sidebarShown s' = false) /\
  (sidebarShown s' = true -> mayHappenAt s' (t + 5000) = true ->
   exists timer s'', exec s' (Fire timer) = Some s'' /\
                     now s'' = (t + 5000)%Z /\ sidebarShown s'' = false) /\
  (sidebarShown s' = true ->
   forall t' s'', exec s' (At t' CloseSidebar) = Some s'' ->
                  sidebarShown s'' = false /\ timeouts s'' = []) /\
  (sidebarShown s' = true ->
   forall t' m s'', exec s' (At t' (Submit m)) = Some s'' -> request s'' <> None ->
                    sidebarShown s'' = false /\ timeouts s'' = []).
Proof.
  intros Hreach Hq Hb Hrows Hex Hquiet Hrun.
  pose proof (reply_arms s0 s1 t q response (reachable_timersOk s0 Hreach) Hq Hb Hrows Hex)
    as Harmed.
  assert (Hnow1 : now s1 = t).
  { apply exec_At in Hex as [_ Hex]. apply handle_event_now in Hex. exact Hex. }
  split; [apply Harmed|]. split; [exact Hnow1|].
  destruct (quiet_run t trace s1 s' Hquiet Hrun) as [Ha _].
  destruct (Ha Harmed) as [(Hr & Hshown & (timer & Ht & Hat) & Hle)
                          | (Hr & Hshown & Ht & Hle)].
  - split; [intros _; exact Hshown|]. split; [intros H; lia|].
    split; [|split].
    + intros _ Hg. exists timer.
      eexists. split; [|split].
      * unfold exec. rewrite Ht. cbn [List.find handle]. rewrite Nat.eqb_refl.
        cbn [due]. rewrite Hg. reflexivity.
      * reflexivity.
      * reflexivity.
    + intros _ t' s'' Hc. apply exec_At in Hc as [_ Hc]. cbn in Hc.
      unfold sidebarShown in Hshown.
      destruct (sidebarData s') as [d|]; [|discriminate]. injection Hc as <-.
      unfold closeSidebar. cbn. rewrite Hat. cbn. rewrite Ht, filter_single_handle.
      split; reflexivity.
    + intros _ t' m s'' Hs Hacc. apply exec_At in Hs as [_ Hs]. cbn in Hs.
      destruct (sendMessage m (setNow t' s')) as [s2|] eqn:E.
      * injection Hs as <-. apply sendMessage_Some in E
          as (a & _ & _ & _ & _ & Hd & _ & _ & _ & _ & Htm).
        rewrite commit_timeouts. unfold sidebarShown. rewrite commit_sidebarData, Hd, Htm.
        cbn. rewrite Hat, Ht, filter_single_handle. split; reflexivity.
      * injection Hs as <-. cbn in Hacc. congruence.
  - split; [intros H; lia|]. split; [intros _; exact Hshown|].
    split; [|split]; intros H; congruence.
Qed.

(** C2, as the claim has it, fails. A brief-show query is answered at 1500
    with a short text and one row; the table has shown its row and completed
    at 1760, which is when the panel is open; nothing else happens, and the
    payload is cleared at 6500, that is 5000 after the answer and 4740 after
    the panel opened. *)
Lemma autoclose_counts_from_reply_not_from_open :
  exists s sOpen sClosed,
    classifyQuery (js "Who is the admin") = BriefShow /\
    run (init ∅ 0) (adminAsked ++ [At 1500 (Reply adminReply)]
                    ++ [TextTick 2; TextTick 2; TextTick 2; RowTick]) = Some s /\
    sidebarShown s = true /\ panelOpen s = false /\
    exec s RowTick = Some sOpen /\ panelOpen sOpen = true /\ now sOpen = 1760%Z /\
    exec sOpen (Fire 1) = Some sClosed /\
    sidebarData sClosed = None /\ now sClosed = 6500%Z /\
    now sClosed <> (now sOpen + 5000)%Z.
Proof.
  exists (stateAfter (adminAsked ++ [At 1500 (Reply adminReply)]
                      ++ [TextTick 2; TextTick 2; TextTick 2; RowTick])),
         (stateAfter (adminAsked ++ [At 1500 (Reply adminReply)] ++ adminRevealed)),
         (stateAfter (adminAsked ++ [At 1500 (Reply adminReply)] ++ adminRevealed
                      ++ [Fire 1])).
  vm_compute. repeat split; try reflexivity. discriminate.
Qed.

Lemma brief_show_closes_5000_after_reply_witness :
  sidebarShown (stateAfter (adminAsked ++ [At 1500 (Reply adminReply)] ++ adminRevealed))
    = true /\
  exists timer s'',
    exec (stateAfter (adminAsked ++ [At 1500 (Reply adminReply)] ++ adminRevealed))
         (Fire timer) = Some s'' /\
    now s'' = (1500 + 5000)%Z /\ sidebarShown s'' = false.
Proof.
  assert (H : reachable (stateAfter adminAsked) /\
              request (stateAfter adminAsked) = Some (js "Who is the admin") /\
              classifyQuery (js "Who is the admin") = BriefShow /\
              rowsOf adminReply <> [] /\
              exec (stateAfter adminAsked) (At 1500 (Reply adminReply)) =
                Some (stateAfter (adminAsked ++ [At 1500 (Reply adminReply)])) /\
              forallb quietLabel adminRevealed = true /\
              run (stateAfter (adminAsked ++ [At 1500 (Reply adminReply)])) adminRevealed =
                Some (stateAfter (adminAsked ++ [At 1500 (Reply adminReply)]
                                  ++ adminRevealed))).
  { split; [exists ∅, 0%Z, adminAsked; vm_compute; reflexivity|].
    split; [vm_compute; reflexivity|].
    split; [vm_compute; reflexivity|].
    split; [vm_compute; discriminate|].
    split; [vm_compute; reflexivity|].
    split; vm_compute; reflexivity. }
  destruct H as (H1 & H2 & H3 & H4 & H5 & H6 & H7).
  destruct (brief_show_closes_5000_after_reply _ _ _ _ _ _ _ H1 H2 H3 H4 H5 H6 H7)
    as (_ & _ & Hbefore & _ & Hfire & _).
  assert (Hshown : sidebarShown
                     (stateAfter (adminAsked ++ [At 1500 (Reply adminReply)]
                                  ++ adminRevealed)) = true).
  { apply Hbefore. vm_compute. reflexivity. }
  split; [exact Hshown|].
  apply Hfire; [exact Hshown|]. vm_compute. reflexivity.
Defined.

(** * Messages and storage along a step *)

Lemma exec_messages (s s' : State) (l : Label) :
  exec s l = Some s' ->
  (messages s' = messages s /\ storage s' = storage s /\ request s' = request s) \/
  (storage s' = Store.saveMessages (storage s) (messages s') /\
   ((exists i, messages s' =
               List.map (fun msg => if (id msg =? i)%Z then setTyping false msg else msg)
                        (messages s) /\
               request s' = request s) \/
    (exists t m u, l = At t (Submit m) /\ messages s' = messages s ++ [u] /\
                   isTyping u = false /\ request s' <> None) \/
    (exists m, request s <> None /\ messages s' = messages s ++ [m] /\
               isTyping m = true /\ request s' = None))).
Proof.
  intros Hex. destruct l as [pos| |timer|t e].
  - apply exec_TextTick in Hex as (c & m & d & _ & _ & _ & _ & ->).
    destruct (snd _).
    + right. split; [reflexivity|]. left. exists (id m). split; reflexivity.
    + left. repeat split; reflexivity.
  - apply exec_RowTick in Hex as (a & d & _ & _ & _ & ->).
    left. destruct (_ && _); repeat split; reflexivity.
  - apply exec_Fire in Hex as (tm & _ & _ & ->).
    left. destruct (callback tm); repeat split; reflexivity.
  - apply exec_At in Hex as [_ Hex]. destruct e; cbn in Hex.
    + destruct (sendMessage messageToSend (setNow t s)) as [s1|] eqn:E.
      * injection Hex as <-. apply sendMessage_Some in E
          as (a & _ & _ & Hm & Hr & _ & _ & _ & Hst & _).
        right. rewrite commit_storage, commit_messages, commit_request, Hst.
        split; [reflexivity|]. right. left.
        eexists t, messageToSend, _. split; [reflexivity|].
        split; [exact Hm|]. split; [reflexivity|]. congruence.
      * injection Hex as <-. left. repeat split; reflexivity.
    + destruct (request s) as [q|] eqn:Hq; [|discriminate]. injection Hex as <-.
      destruct (sendMessage_resolved_spec q response (setNow t s))
        as ((m & Hm & _ & Hty & _) & Hr & _ & _ & Hst & _).
      right. rewrite commit_storage, commit_messages, commit_request, Hst.
      split; [reflexivity|]. right. right. exists m.
      split; [discriminate|]. split; [exact Hm|]. split; [exact Hty | exact Hr].
    + destruct (request s) as [q|] eqn:Hq; [|discriminate]. injection Hex as <-.
      destruct (sendMessage_rejected_spec errorText (setNow t s))
        as ((m & Hm & _ & Hty) & Hr & _ & _ & Hst & _).
      right. rewrite commit_storage, commit_messages, commit_request, Hst.
      split; [reflexivity|]. right. right. exists m.
      split; [discriminate|]. split; [exact Hm|]. split; [exact Hty | exact Hr].
    + destruct (isLoading s); [discriminate|].
      destruct (Csv.jsstring_eqb _ _); injection Hex as <-; left; repeat split; reflexivity.
    + destruct (sidebarData s); [|discriminate]. injection Hex as <-.
      left. unfold closeSidebar. cbn. destruct (autoCloseTimer s); repeat split; reflexivity.
    + destruct (sidebarData s) as [d|]; [|discriminate].
      destruct (Sidebar.showArtifact d); [|discriminate].
      injection Hex as <-. left. repeat split; reflexivity.
Qed.

Lemma init_messages (ls : gmap string Store.Item) (t : Z) :
  messages (init ls t) = Store.initialMessages ls t.
Proof. init_cases. Qed.

Lemma init_storage (ls : gmap string Store.Item) (t : Z) :
  storage (init ls t) = Store.saveMessages ls (Store.initialMessages ls t).
Proof. init_cases. Qed.

Lemma init_request (ls : gmap string Store.Item) (t : Z) : request (init ls t) = None.
Proof. init_cases. Qed.

Lemma restored_final (l : list Message) :
  Forall (fun m => isTyping m = false) (List.map Store.restored l).
Proof. induction l; constructor; [reflexivity | assumption]. Qed.

(** The messages a page starts with are all complete, and there is one at
    least. *)
Lemma initialMessages_final (ls : gmap string Store.Item) (t : Z) :
  Forall (fun m => isTyping m = false) (Store.initialMessages ls t) /\
  Store.initialMessages ls t <> [].
Proof.
  unfold Store.initialMessages, Store.getStoredData.
  destruct (ls !! Store.MESSAGES) as [[|parsed]|]; cbn;
    try (split; [repeat constructor | discriminate]).
  destruct (List.map Store.restored parsed) as [|m rest] eqn:E; cbn.
  - split; [repeat constructor | discriminate].
  - split; [|discriminate]. rewrite <- E. apply restored_final.
Qed.

Lemma headFinal_app (ms : list Message) (m : Message) :
  headFinal ms -> headFinal (ms ++ [m]).
Proof.
  intros (h & rest & -> & Hh). exists h, (rest ++ [m]). split; [reflexivity | exact Hh].
Qed.

Lemma headFinal_map (ms : list Message) (i : Z) :
  headFinal ms ->
  headFinal (List.map (fun msg => if (id msg =? i)%Z then setTyping false msg else msg) ms).
Proof.
  intros (h & rest & -> & Hh). cbn. eexists _, _. split; [reflexivity|].
  destruct (id h =? i)%Z; [reflexivity | exact Hh].
Qed.

Lemma saveMessages_lookup (ls : gmap string Store.Item) (ms : list Message) :
  headFinal ms ->
  Store.saveMessages ls ms !! Store.MESSAGES =
    Some (Store.JsonMessages
            (Store.sliceLast 100 (List.filter (fun m => negb (isTyping m)) ms))).
Proof.
  intros (h & rest & -> & Hh). unfold Store.saveMessages.
  cbn [List.filter]. rewrite Hh. cbn [negb length Nat.ltb Nat.leb].
  unfold Store.saveToStorage. apply lookup_insert_eq.
Qed.

Lemma saved_init (ls : gmap string Store.Item) (t : Z) : saved (init ls t).
Proof.
  assert (Hh : headFinal (Store.initialMessages ls t)).
  { destruct (initialMessages_final ls t) as [Hall Hne].
    destruct (Store.initialMessages ls t) as [|m rest]; [congruence|].
    exists m, rest. split; [reflexivity|]. inversion Hall; assumption. }
  unfold saved. rewrite init_storage, init_messages.
  split; [apply saveMessages_lookup; exact Hh | exact Hh].
Qed.

Lemma exec_saved (s s' : State) (l : Label) :
  saved s -> exec s l = Some s' -> saved s'.
Proof.
  intros [Hst Hh] Hex. unfold saved.
  destruct (exec_messages s s' l Hex)
    as [(Em & Es & _) | (Es & [(i & Em & _) | [(t & m & u & _ & Em & _) | (m & _ & Em & _)]])].
  - rewrite Em, Es. split; assumption.
  - assert (Hh' : headFinal (messages s')) by (rewrite Em; apply headFinal_map; exact Hh).
    split; [rewrite Es; apply saveMessages_lookup; exact Hh' | exact Hh'].
  - assert (Hh' : headFinal (messages s')) by (rewrite Em; apply headFinal_app; exact Hh).
    split; [rewrite Es; apply saveMessages_lookup; exact Hh' | exact Hh'].
  - assert (Hh' : headFinal (messages s')) by (rewrite Em; apply headFinal_app; exact Hh).
    split; [rewrite Es; apply saveMessages_lookup; exact Hh' | exact Hh'].
Qed.

Lemma reachable_saved (s : State) : reachable s -> saved s.
Proof.
  intros (ls0 & t0 & trace & H).
  assert (G : forall trace s0, saved s0 -> run s0 trace = Some s -> saved s).
  { clear. induction trace as [|l trace IH]; intros s0 Hs; cbn.
    - intros H. injection H as <-. exact Hs.
    - destruct (exec s0 l) as [s1|] eqn:E; [|discriminate].
      apply IH. exact (exec_saved s0 s1 l Hs E). }
  exact (G trace _ (saved_init ls0 t0) H).
Qed.

Lemma filter_final (ms : list Message) :
  Forall (fun m => isTyping m = false) ms ->
  List.filter (fun m => negb (isTyping m)) ms = ms.
Proof.
  induction 1 as [|m ms Hm _ IH]; [reflexivity|]. cbn. rewrite Hm, IH. reflexivity.
Qed.

Lemma sliceLast_short {A : Type} (n : nat) (l : list A) :
  length l <= n -> Store.sliceLast n l = l.
Proof.
  intros H. unfold Store.sliceLast. replace (length l - n) with 0 by lia. reflexivity.
Qed.

(** C5. A session whose messages are all complete and number at most 100 comes
    back from [localStorage] as it is: a page mounted on the storage the
    controller left starts with the same (role, text) pairs in the same
    order, and none of its messages is being revealed.  Whatever the storage
    holds, no message of a page just mounted is being revealed. *)
Theorem persist_reload_roundtrip (s : State) (t : Z) :
  reachable s ->
  Forall (fun m => isTyping m = false) (messages s) ->
  length (messages s) <= 100 ->
  List.map (fun m => (type m, message m)) (messages (init (storage s) t)) =
    List.map (fun m => (type m, message m)) (messages s) /\
  Forall (fun m => isTyping m = false) (messages (init (storage s) t)) /\
  (forall ls t', Forall (fun m => isTyping m = false) (messages (init ls t'))).
Proof.
  intros Hreach Hfinal Hlen.
  assert (Hany : forall ls t', Forall (fun m => isTyping m = false) (messages (init ls t'))).
  { intros ls t'. rewrite init_messages. apply initialMessages_final. }
  split; [|split; [apply Hany | exact Hany]]. revert Hreach Hfinal Hlen.
  intros Hreach Hfinal Hlen.
  destruct (reachable_saved s Hreach) as [Hst (h & rest & Hms & _)].
  rewrite (filter_final _ Hfinal), (sliceLast_short 100 _ Hlen) in Hst.
  assert (E : messages (init (storage s) t) = List.map Store.restored (messages s)).
  { rewrite init_messages. unfold Store.initialMessages, Store.getStoredData.
    rewrite Hst. cbn [String.eqb]. change (Store.MESSAGES =? Store.MESSAGES)%string with true.
    cbn iota. rewrite length_map, Hms. reflexivity. }
  rewrite E, List.map_map. reflexivity.
Qed.

Lemma persist_reload_roundtrip_witness :
  List.map (fun m => (type m, message m))
    (messages (init (storage (stateAfter (adminAsked ++ [At 1500 (Reply adminReply)]
                                          ++ adminRevealed))) 9000)) =
  [(bot, Store.greetingText); (user, js "Who is the admin"); (bot, js "Hi")].
Proof.
  refine (eq_trans (proj1 (persist_reload_roundtrip
            (stateAfter (adminAsked ++ [At 1500 (Reply adminReply)] ++ adminRevealed))
            9000 _ _ _)) _).
  - exists ∅, 0%Z, (adminAsked ++ [At 1500 (Reply adminReply)] ++ adminRevealed).
    vm_compute. reflexivity.
  - vm_compute. repeat constructor.
  - vm_compute. lia.
  - vm_compute. reflexivity.
Defined.


(** * The two reveals of a response *)

(** The sidebar payload and the artifact switch after an answer that shows
    the panel. *)
Lemma sendMessage_resolved_panel (q : jsstring) (r : Backend.Response) (s : State) :
  showsPanel q (rowsOf r) = true ->
  option_map Sidebar.data (sidebarData (sendMessage_resolved q r s)) = Some (rowsOf r) /\
  showArtifact (sendMessage_resolved q r s) = shouldShowArtifact q (rowsOf r).
Proof.
  unfold sendMessage_resolved, showsPanel, rowsOf.
  set (rows := match Backend.results r with Some l => l | None => [] end).
  set (art := shouldShowArtifact q rows).
  destruct (0 <? length rows); destruct (classifyQuery q);
    destruct (length rows <=? 10); destruct art; cbn -[generateSuggestions titleOf trim];
    intros H; try discriminate H; split; reflexivity.
Qed.

(** Whatever the answer: when it shows the panel in table view, the table is
    mounted and its interval started while the answer is processed, at the
    moment the message enters the revealing state. *)
Lemma reply_starts_table_at_once
    (s s1 : State) (t : Z) (q : jsstring) (r : Backend.Response) :
  request s = Some q ->
  exec s (At t (Reply r)) = Some s1 ->
  showsPanel q (rowsOf r) = true ->
  shouldShowArtifact q (rowsOf r) = false ->
  table s1 = Some (AnimatedTable.mount t (rowsOf r)) /\
  tableDues s1 = [(t + AnimatedTable.period)%Z] /\
  exists m, messages s1 = messages s ++ [m] /\ isTyping m = true.
Proof.
  intros Hq Hex Hp Hart. apply exec_At in Hex as [_ Hex]. cbn in Hex.
  rewrite Hq in Hex. injection Hex as <-.
  destruct (sendMessage_resolved_panel q r (setNow t s) Hp) as [Hd Ha].
  destruct (sendMessage_resolved_spec q r (setNow t s))
    as ((m & Hm & _ & Hty & _) & _ & _ & Hn & _).
  assert (Hrows : rowsOf r <> []).
  { unfold showsPanel in Hp. destruct (rowsOf r); [discriminate Hp | discriminate]. }
  assert (Ht : table (commit (sendMessage_resolved q r (setNow t s))) =
               Some (AnimatedTable.mount t (rowsOf r))).
  { change (table (commit (sendMessage_resolved q r (setNow t s))))
      with (renderTable (sendMessage_resolved q r (setNow t s))).
    unfold renderTable. rewrite Ha, Hart, Hn.
    destruct (sidebarData (sendMessage_resolved q r (setNow t s))) as [d|];
      [|discriminate Hd].
    cbn in Hd. injection Hd as Hd. rewrite Hd.
    destruct (rowsOf r); [congruence | reflexivity]. }
  split; [exact Ht|]. split.
  - unfold tableDues. rewrite Ht. destruct (rowsOf r); [congruence | reflexivity].
  - exists m. rewrite commit_messages. split; assumption.
Qed.

(** C1. The table reveal does not wait for the text reveal.  A listing query
    is answered at 1500 with a text of 18 characters and one row.  Right
    after the answer both intervals are running.  At 1600 the row is shown
    while 4 characters of the text are; at 1700 the table has completed while
    9 characters are shown and the message is still being revealed. *)
Theorem table_reveal_runs_during_text_reveal :
  classifyQuery (js "Show me users") = ShowSidebar /\
  (exists s, run (init ∅ 0) usersAnswered = Some s /\
             textRevealRunning s = true /\ tableRevealRunning s = true) /\
  (exists s, run (init ∅ 0) (usersAnswered ++ repeat (TextTick 2) 4 ++ [RowTick]) = Some s /\
             now s = 1600%Z /\
             option_map AnimatedTable.visibleRows (table s) = Some 1 /\
             option_map TypewriterText.currentIndex (nth 2 (typewriters s) None) = Some 4 /\
             List.map (fun m => string_of_list_ascii (message m)) (revealing s) =
               ["Here are the users"%string]) /\
  (exists s, run (init ∅ 0) (usersAnswered ++ repeat (TextTick 2) 4 ++ [RowTick]
                             ++ repeat (TextTick 2) 5 ++ [RowTick]) = Some s /\
             now s = 1700%Z /\ tableRevealed s = true /\
             textRevealRunning s = true /\
             option_map TypewriterText.currentIndex (nth 2 (typewriters s) None) = Some 9 /\
             length (revealing s) = 1).
Proof.
  split; [vm_compute; reflexivity|].
  split; [|split].
  - exists (stateAfter usersAnswered). vm_compute. repeat split; reflexivity.
  - exists (stateAfter (usersAnswered ++ repeat (TextTick 2) 4 ++ [RowTick])).
    vm_compute. repeat split; reflexivity.
  - exists (stateAfter (usersAnswered ++ repeat (TextTick 2) 4 ++ [RowTick]
                        ++ repeat (TextTick 2) 5 ++ [RowTick])).
    vm_compute. repeat split; reflexivity.
Qed.

(** * Messages being revealed *)

Lemma revealing_app (ms : list Message) (m : Message) :
  List.filter isTyping (ms ++ [m]) =
  List.filter isTyping ms ++ (if isTyping m then [m] else []).
Proof. rewrite List.filter_app. reflexivity. Qed.

Lemma revealing_map_le (ms : list Message) (i : Z) :
  length (List.filter isTyping
            (List.map (fun msg => if (id msg =? i)%Z then setTyping false msg else msg) ms))
  <= length (List.filter isTyping ms).
Proof.
  induction ms as [|m ms IH]; [reflexivity|]. cbn [List.map List.filter].
  destruct (id m =? i)%Z; cbn [isTyping setTyping].
  - destruct (isTyping m); cbn [length]; lia.
  - destruct (isTyping m); cbn [length]; lia.
Qed.

Lemma exec_patient (s s' : State) (l : Label) :
  patient s l = true -> exec s l = Some s' ->
  length (revealing s) <= 1 /\ (request s <> None -> revealing s = []) ->
  length (revealing s') <= 1 /\ (request s' <> None -> revealing s' = []).
Proof.
  intros Hp Hex [Hlen Hreq]. unfold revealing in *.
  destruct (exec_messages s s' l Hex)
    as [(Em & _ & Er) | (_ & [(i & Em & Er) | [(t & m & u & -> & Em & Hu & _)
                                              | (m & Hr & Em & Hm & Er)]])].
  - rewrite Em, Er. split; assumption.
  - rewrite Em, Er. pose proof (revealing_map_le (messages s) i) as Hle.
    split; [lia|]. intros H. rewrite (Hreq H) in Hle.
    apply List.length_zero_iff_nil. cbn in Hle. lia.
  - cbn in Hp. unfold revealing in Hp.
    destruct (List.filter isTyping (messages s)) eqn:E; [|discriminate].
    rewrite Em, revealing_app, E, Hu. split; [cbn; lia | reflexivity].
  - rewrite Em, revealing_app, (Hreq Hr), Hm, Er. split; [cbn; lia | congruence].
Qed.

(** A run of a patient user is a run. *)
Lemma runPatient_run (trace : list Label) (s s' : State) :
  runPatient s trace = Some s' -> run s trace = Some s'.
Proof.
  revert s. induction trace as [|l trace IH]; intros s; cbn; [auto|].
  destruct (patient s l); [|discriminate].
  destruct (exec s l) as [s1|]; [apply IH | discriminate].
Qed.

(** C8, as the claim has it, fails. The user asks again while the first
    answer is still being revealed; when the second answer arrives two
    messages are revealing. *)
Lemma two_messages_revealing :
  exists s, run (init ∅ 0) impatient = Some s /\
            List.map (fun m => (id m, isTyping m)) (revealing s) =
              [(1501%Z, true); (2391%Z, true)].
Proof.
  exists (stateAfter impatient). vm_compute. split; reflexivity.
Qed.

(** C8, amended. When [sendMessage] is called only while no message is being
    revealed, at most one message is revealing in every state the controller
    reaches, and none is while a request is awaited. *)
Theorem one_reveal_when_patient
    (ls0 : gmap string Store.Item) (t0 : Z) (trace : list Label) (s : State) :
  runPatient (init ls0 t0) trace = Some s ->
  length (revealing s) <= 1 /\ (request s <> None -> revealing s = []).
Proof.
  assert (Hinit : length (revealing (init ls0 t0)) <= 1 /\
                  (request (init ls0 t0) <> None -> revealing (init ls0 t0) = [])).
  { assert (E : revealing (init ls0 t0) = []).
    { unfold revealing. rewrite init_messages.
      destruct (initialMessages_final ls0 t0) as [H _].
      induction H as [|m ms Hm _ IH]; [reflexivity|]. cbn. rewrite Hm. exact IH. }
    rewrite E. split; [cbn; lia | reflexivity]. }
  revert Hinit. generalize (init ls0 t0) as s0.
  induction trace as [|l trace IH]; intros s0 Hinv; cbn.
  - intros H. injection H as <-. exact Hinv.
  - destruct (patient s0 l) eqn:Hp; [|discriminate].
    destruct (exec s0 l) as [s1|] eqn:E; [|discriminate].
    apply IH. exact (exec_patient s0 s1 l Hp E Hinv).
Qed.

Lemma one_reveal_when_patient_witness :
  length (revealing (stateAfter (adminAsked ++ [At 1500 (Reply adminReply)]
                                 ++ [TextTick 2; TextTick 2]))) <= 1.
Proof.
  refine (proj1 (one_reveal_when_patient ∅ 0
            (adminAsked ++ [At 1500 (Reply adminReply)] ++ [TextTick 2; TextTick 2]) _ _)).
  vm_compute. reflexivity.
Defined.

(** * Further properties of the renderers, the export and the store *)

Section TableAlone.

Import AnimatedTable.

(** From row [i] on, with the interval set: the remaining [k] rows are shown
    one by one, then one more tick clears the interval and calls back. *)
Lemma runTable_from (k i n : nat) (b : bool) (due : Z) (fuel : nat) :
  i + k = n -> k < fuel ->
  runTable fuel (mk i b i n (Some due)) = (seq (S i) k, 1, mk n true n n None).
Proof.
  revert i b due fuel. induction k as [|k IH]; intros i b due fuel Hik Hfuel.
  - destruct fuel as [|fuel]; [lia|]. assert (i = n) as -> by lia.
    cbn [runTable interval tick currentRow maxRows visibleRows].
    rewrite Nat.ltb_irrefl. destruct fuel; reflexivity.
  - destruct fuel as [|fuel]; [lia|].
    cbn [runTable interval tick currentRow maxRows visibleRows isComplete].
    assert (Hlt : (i <? n) = true) by (apply Nat.ltb_lt; lia).
    rewrite Hlt, Nat.add_1_r.
    rewrite (IH (S i) b (due + period)%Z fuel) by lia.
    reflexivity.
Qed.

End TableAlone.

(** X1. The table renderer on a payload of n >= 1 rows shows 1, 2, ... rows
    up to min(n, 50), then clears its interval and calls [onComplete], once;
    what it renders at the end is the first 50 rows of the payload.  On an
    empty payload it starts no interval, shows nothing and never calls
    back. *)
Theorem table_reveal_capped {Row : Type} (data : list Row) (now : Z) (fuel : nat) :
  (data <> [] -> Nat.min (length data) 50 < fuel ->
   runTable fuel (AnimatedTable.mount now data) =
     (seq 1 (Nat.min (length data) 50), 1,
      AnimatedTable.mk (Nat.min (length data) 50) true (Nat.min (length data) 50)
                       (Nat.min (length data) 50) None) /\
   displayData data (snd (runTable fuel (AnimatedTable.mount now data))) =
     firstn 50 data) /\
  (data = [] ->
   runTable fuel (AnimatedTable.mount now data) =
     ([], 0, AnimatedTable.mk 0 false 0 0 None)).
Proof.
  split.
  - intros Hne Hfuel.
    assert (E : runTable fuel (AnimatedTable.mount now data) =
                (seq 1 (Nat.min (length data) 50), 1,
                 AnimatedTable.mk (Nat.min (length data) 50) true
                   (Nat.min (length data) 50) (Nat.min (length data) 50) None)).
    { destruct data as [|r rest] eqn:Ed; [congruence|]. rewrite <- Ed in *.
      replace (AnimatedTable.mount now data)
        with (AnimatedTable.mk 0 false 0 (Nat.min (length data) 50)
                (Some (now + AnimatedTable.period)%Z)) by (rewrite Ed; reflexivity).
      apply runTable_from; lia. }
    split; [exact E|]. rewrite E. unfold displayData. cbn [snd AnimatedTable.visibleRows].
    destruct (Nat.le_ge_cases (length data) 50) as [H | H].
    + rewrite Nat.min_l by exact H. rewrite !firstn_all2 by lia. reflexivity.
    + rewrite Nat.min_r by exact H. reflexivity.
  - intros ->. destruct fuel; reflexivity.
Qed.

Lemma table_reveal_capped_witness :
  runTable 60 (AnimatedTable.mount 0 (repeat tt 200)) =
    (seq 1 50, 1, AnimatedTable.mk 50 true 50 50 None) /\
  displayData (repeat tt 200) (snd (runTable 60 (AnimatedTable.mount 0 (repeat tt 200)))) =
    firstn 50 (repeat tt 200).
Proof.
  apply (proj1 (table_reveal_capped (repeat tt 200) 0 60)).
  - discriminate.
  - vm_compute. lia.
Defined.

(** ** The store *)

Lemma sliceLast_length {A : Type} (n : nat) (l : list A) :
  length (Store.sliceLast n l) = Nat.min n (length l).
Proof. unfold Store.sliceLast. rewrite length_skipn. lia. Qed.

Lemma sliceLast_suffix {A : Type} (n : nat) (l : list A) :
  l = firstn (length l - n) l ++ Store.sliceLast n l.
Proof. unfold Store.sliceLast. symmetry. apply firstn_skipn. Qed.

(** X2. The save effect writes the latest 100 of the messages that are not
    being revealed, in their order, under the messages key and touches no
    other key; when every message is being revealed it writes nothing. *)
Theorem saveMessages_caps (ls : gmap string Store.Item) (ms : list Message) :
  let complete := List.filter (fun m => negb (isTyping m)) ms in
  (complete = [] -> Store.saveMessages ls ms = ls) /\
  (complete <> [] ->
   exists kept,
     Store.saveMessages ls ms !! Store.MESSAGES = Some (Store.JsonMessages kept) /\
     length kept = Nat.min 100 (length complete) /\
     complete = firstn (length complete - 100) complete ++ kept /\
     Forall (fun m => isTyping m = false) kept) /\
  (forall key, key <> Store.MESSAGES -> Store.saveMessages ls ms !! key = ls !! key).
Proof.
  cbv zeta. unfold Store.saveMessages.
  set (complete := List.filter (fun m => negb (isTyping m)) ms).
  assert (Hall : Forall (fun m => isTyping m = false) complete).
  { apply List.Forall_forall. intros m Hin. apply List.filter_In in Hin as [_ H].
    destruct (isTyping m); [discriminate | reflexivity]. }
  repeat split.
  - intros ->. reflexivity.
  - intros Hne. destruct complete as [|m rest] eqn:E; [congruence|]. rewrite <- E in *.
    replace (0 <? length complete) with true by (rewrite E; reflexivity).
    exists (Store.sliceLast 100 complete).
    split; [apply lookup_insert_eq|].
    split; [apply sliceLast_length|].
    split; [apply sliceLast_suffix|].
    apply List.Forall_forall. intros x Hin. rewrite List.Forall_forall in Hall. apply Hall.
    unfold Store.sliceLast in Hin.
    rewrite <- (firstn_skipn (length complete - 100) complete).
    apply in_or_app. right. exact Hin.
  - intros key Hkey. destruct (0 <? length complete); [|reflexivity].
    unfold Store.saveToStorage. apply lookup_insert_ne. congruence.
Qed.

Lemma saveMessages_caps_witness :
  exists kept,
    Store.saveMessages ∅ (repeat (Store.greeting 0) 150) !! Store.MESSAGES =
      Some (Store.JsonMessages kept) /\
    length kept = 100.
Proof.
  destruct (proj1 (proj2 (saveMessages_caps ∅ (repeat (Store.greeting 0) 150))))
    as (kept & H1 & H2 & _).
  - vm_compute. discriminate.
  - exists kept. split; [exact H1|]. rewrite H2. vm_compute. reflexivity.
Defined.

(** ** Case *)

Lemma lowerUnit_idempotent (c : ascii) : lowerUnit (lowerUnit c) = lowerUnit c.
Proof.
  destruct c as [[] [] [] [] [] [] [] []]; vm_compute; reflexivity.
Qed.

Lemma toLowerCase_idempotent (s : jsstring) : toLowerCase (toLowerCase s) = toLowerCase s.
Proof.
  unfold toLowerCase. rewrite List.map_map. apply List.map_ext. apply lowerUnit_idempotent.
Qed.

(** X4. The three functions of the query do not see its letter case: the
    lower-cased query gets the same classification, the same artifact
    decision and the same suggestions as the query itself. *)
Theorem query_functions_ignore_case
    (userQuery : jsstring) (results : list Csv.Row) (hasResults : bool) :
  classifyQuery (toLowerCase userQuery) = classifyQuery userQuery /\
  shouldShowArtifact (toLowerCase userQuery) results = shouldShowArtifact userQuery results /\
  generateSuggestions (toLowerCase userQuery) hasResults =
    generateSuggestions userQuery hasResults.
Proof.
  unfold classifyQuery, shouldShowArtifact, generateSuggestions.
  rewrite !toLowerCase_idempotent. repeat split.
Qed.

(** ** The export *)

Section Reader.

Import Csv.

Lemma readFields_field (text tail acc : jsstring) :
  readFields (doubleQuotes text ++ quote :: tail) acc true =
  match tail with
  | [] => Some [rev acc ++ text]
  | c :: tail' =>
      if Ascii.eqb c quote then readFields tail' (quote :: rev text ++ acc) true
      else if Ascii.eqb c comma
           then option_map (cons (rev acc ++ text)) (readFields tail' [] false)
           else None
  end.
Proof.
  revert acc. induction text as [|c text IH]; intros acc.
  - cbn [doubleQuotes flat_map app readFields]. change (Ascii.eqb quote quote) with true.
    cbn iota. rewrite app_nil_r. destruct tail as [|c tail']; reflexivity.
  - cbn [doubleQuotes flat_map]. fold (doubleQuotes text).
    destruct (Ascii.eqb c quote) eqn:E.
    + apply Ascii.eqb_eq in E. subst c.
      cbn [app readFields]. change (Ascii.eqb quote quote) with true. cbn iota.
      rewrite IH. cbn [rev]. rewrite <- !app_assoc. cbn [app].
      destruct tail as [|c tail']; reflexivity.
    + cbn [app readFields]. rewrite E. rewrite IH. cbn [rev]. rewrite <- !app_assoc.
      cbn [app]. destruct tail as [|c' tail']; reflexivity.
Qed.

Lemma readLine_join (cells : list jsstring) :
  cells <> [] -> readLine (join [comma] (List.map quoted cells)) = Some cells.
Proof.
  unfold readLine. induction cells as [|text cells IH]; [congruence|]. intros _.
  destruct cells as [|text' cells].
  - cbn [List.map join]. unfold quoted. cbn [readFields].
    change (Ascii.eqb quote quote) with true. cbn iota.
    rewrite (readFields_field text [] []). reflexivity.
  - change (join [comma] (List.map quoted (text :: text' :: cells)))
      with (quoted text ++ [comma] ++ join [comma] (List.map quoted (text' :: cells))).
    unfold quoted at 1. cbn [app readFields].
    change (Ascii.eqb quote quote) with true. cbn iota.
    rewrite <- app_assoc. cbn [app].
    rewrite (readFields_field text _ []).
    change (Ascii.eqb comma quote) with false. change (Ascii.eqb comma comma) with true.
    cbn iota. rewrite IH by discriminate. reflexivity.
Qed.

End Reader.

(** X5. Every data line of the export reads back to the texts of the cells
    of its row, whatever characters they hold (commas, quotes, line breaks):
    when the export does not throw and the first row has a column, there is
    one line for each row, and the reader of quoted fields applied to the
    line at a position gives the cell text of each column for the row at
    that position. *)
Theorem csv_lines_read_back (objectPrototype : Csv.Row) (data : list Csv.Row)
    (lines : list jsstring) :
  Csv.columns data <> [] ->
  Csv.csvRows objectPrototype data = Some lines ->
  length lines = length data /\
  forall i line, nth_error lines i = Some line ->
    exists row cells,
      nth_error data i = Some row /\
      Forall2 (fun col cell => Csv.cellText objectPrototype row col = Some cell)
              (Csv.columns data) cells /\
      readLine line = Some cells.
Proof.
  intros Hcols Hrows. split; [exact (traverse_length _ _ _ Hrows)|].
  intros i line Hline.
  destruct (proj2 (traverse_nth _ _ _ i Hrows) line Hline) as (row & Hrow & Hl).
  apply rowLine_Some in Hl. destruct Hl as (cells & Hcells & ->).
  exists row, cells. split; [exact Hrow|]. split; [exact Hcells|].
  apply readLine_join. intros ->. inversion Hcells as [Hc|]. congruence.
Qed.

Lemma csv_lines_read_back_witness :
  length quotedLines = length quotedRows /\
  forall i line, nth_error quotedLines i = Some line ->
    exists row cells,
      nth_error quotedRows i = Some row /\
      Forall2 (fun col cell => Csv.cellText pagePrototype row col = Some cell)
              (Csv.columns quotedRows) cells /\
      readLine line = Some cells.
Proof.
  apply (csv_lines_read_back pagePrototype quotedRows quotedLines).
  - vm_compute. discriminate.
  - vm_compute. reflexivity.
Defined.



(** X7. The file name of the export is made of letters, digits and
    underscores followed by [.csv]; it keeps the letters and digits of the
    title at their places, and a title of letters and digits is kept as it
    is. *)
Theorem downloadName_safe (title : jsstring) :
  (exists stem, Csv.downloadName title = stem ++ js ".csv" /\
                length stem = length title /\
                Forall (fun c => Csv.isAlnum c = true \/ c = Csv.underscore) stem) /\
  (Forall (fun c => Csv.isAlnum c = true) title ->
   Csv.downloadName title = title ++ js ".csv") /\
  Csv.sanitize (Csv.sanitize title) = Csv.sanitize title.
Proof.
  split; [|split].
  - exists (Csv.sanitize title). split; [reflexivity|].
    split; [apply length_map|].
    unfold Csv.sanitize. induction title as [|c title IH]; constructor; [|exact IH].
    destruct (Csv.isAlnum c) eqn:E; auto.
  - intros H. unfold Csv.downloadName. f_equal.
    unfold Csv.sanitize. induction H as [|c title Hc _ IH]; [reflexivity|].
    cbn. rewrite Hc, IH. reflexivity.
  - unfold Csv.sanitize. rewrite List.map_map. apply List.map_ext. intros c.
    destruct (Csv.isAlnum c) eqn:E; [rewrite E; reflexivity | reflexivity].
Qed.

Lemma downloadName_safe_witness :
  Csv.downloadName (js "Report2024") = js "Report2024" ++ js ".csv".
Proof.
  apply (proj1 (proj2 (downloadName_safe (js "Report2024")))).
  repeat constructor.
Defined.

(** ** Voice input *)

Section SpeechFacts.

Import Speech.

Lemma fold_accumulate (results : list Result) (f i : jsstring) :
  fold_left accumulate results (f, i) =
  (f ++ concat (List.map transcript (List.filter isFinal results)),
   i ++ concat (List.map transcript (List.filter (fun r => negb (isFinal r)) results))).
Proof.
  revert f i. induction results as [|r results IH]; intros f i.
  - cbn. rewrite !app_nil_r. reflexivity.
  - cbn [fold_left List.filter]. unfold accumulate at 2. destruct (isFinal r); cbn [negb fst snd].
    + rewrite IH. cbn [List.map concat]. rewrite app_assoc. reflexivity.
    + rewrite IH. cbn [List.map concat]. rewrite app_assoc. reflexivity.
Qed.

End SpeechFacts.

(** X8. What a recognition event puts in the input box: the transcripts of
    the final results from [resultIndex] on, concatenated in order, when that
    text is not empty, and otherwise the concatenated transcripts of the
    results that are not final; with no result from [resultIndex] on, the
    empty text. *)
Theorem onresult_final_first (resultIndex : nat) (results : list Speech.Result) :
  let heard := skipn resultIndex results in
  let finals := concat (List.map Speech.transcript (List.filter Speech.isFinal heard)) in
  let interims :=
    concat (List.map Speech.transcript
                     (List.filter (fun r => negb (Speech.isFinal r)) heard)) in
  (finals <> [] -> Speech.onresult resultIndex results = finals) /\
  (finals = [] -> Speech.onresult resultIndex results = interims) /\
  (length results <= resultIndex -> Speech.onresult resultIndex results = []).
Proof.
  cbv zeta. unfold Speech.onresult. rewrite fold_accumulate. cbn [app].
  split; [|split].
  - intros H. destruct (concat _) eqn:E; [congruence | reflexivity].
  - intros ->. reflexivity.
  - intros H. rewrite skipn_all2 by exact H. reflexivity.
Qed.

Lemma onresult_final_first_witness :
  Speech.onresult 1 [Speech.mkResult (js "old") true; Speech.mkResult (js "how ") true;
                     Speech.mkResult (js "many") true; Speech.mkResult (js "man") false] =
    js "how many".
Proof.
  refine (eq_trans (proj1 (onresult_final_first 1 _) _) _).
  - vm_compute. discriminate.
  - vm_compute. reflexivity.
Defined.

(** * The panel in every state of the controller *)

Lemma commit_table (s : State) : table (commit s) = renderTable s.
Proof. reflexivity. Qed.

Lemma commit_showArtifact (s : State) : showArtifact (commit s) = showArtifact s.
Proof. reflexivity. Qed.

Lemma commit_sidebarTyping (s : State) : sidebarTyping (commit s) = sidebarTyping s.
Proof. reflexivity. Qed.

Lemma commit_isLoading (s : State) : isLoading (commit s) = isLoading s.
Proof. reflexivity. Qed.

Lemma commit_typewriters (s : State) :
  typewriters (commit s) = renderTypewriters (now s) (messages s) (typewriters s).
Proof. reflexivity. Qed.

(** When [sendMessage] returns early, and what it does otherwise. *)
Lemma sendMessage_None (messageToSend : option jsstring) (s : State) :
  sendMessage messageToSend s = None <->
  isEmpty (trim (actualMessageOf messageToSend s)) = true \/ isLoading s = true.
Proof.
  unfold sendMessage. fold (actualMessageOf messageToSend s).
  destruct (isEmpty (trim (actualMessageOf messageToSend s))); cbn [orb].
  - split; auto.
  - destruct (isLoading s); split; auto; try discriminate.
    intros [H | H]; discriminate.
Qed.

Lemma sendMessage_accepts (messageToSend : option jsstring) (s s1 : State) :
  sendMessage messageToSend s = Some s1 ->
  request s1 = Some (actualMessageOf messageToSend s) /\
  messages s1 = messages s ++
    [mkMessage (now s) user (actualMessageOf messageToSend s) (now s) false None None None] /\
  sidebarData s1 = None /\ showArtifact s1 = false /\ sidebarTyping s1 = false /\
  isLoading s1 = true /\ autoCloseTimer s1 = None /\ inputMessage s1 = [] /\
  lastUserQuery s1 = actualMessageOf messageToSend s /\
  table s1 = table s /\ typewriters s1 = typewriters s /\ now s1 = now s /\
  timeouts s1 = match autoCloseTimer s with
                | Some timer =>
                    List.filter (fun t => negb (handle t =? timer)) (timeouts s)
                | None => timeouts s
                end.
Proof.
  unfold sendMessage. fold (actualMessageOf messageToSend s).
  destruct (isEmpty (trim (actualMessageOf messageToSend s))); [discriminate|].
  destruct (isLoading s); [discriminate|].
  cbn [orb]. intros H. injection H as <-.
  cbn. destruct (autoCloseTimer s) eqn:Ha; cbn; rewrite ?Ha; repeat split; reflexivity.
Qed.

(** The panel fields after the part of [sendMessage] that follows [await]. *)
Lemma sendMessage_resolved_fields (q : jsstring) (r : Backend.Response) (s : State) :
  (showsPanel q (rowsOf r) = true ->
   exists title,
     sidebarData (sendMessage_resolved q r s) =
       Some (Sidebar.mkData title (rowsOf r) q (classifyQuery q)
                            (shouldShowArtifact q (rowsOf r))) /\
     showArtifact (sendMessage_resolved q r s) = shouldShowArtifact q (rowsOf r) /\
     sidebarTyping (sendMessage_resolved q r s) = false) /\
  (showsPanel q (rowsOf r) = false ->
   sidebarData (sendMessage_resolved q r s) = None /\
   showArtifact (sendMessage_resolved q r s) =
     (if 0 <? length (rowsOf r) then showArtifact s else false) /\
   sidebarTyping (sendMessage_resolved q r s) = sidebarTyping s) /\
  table (sendMessage_resolved q r s) = table s.
Proof.
  unfold sendMessage_resolved, showsPanel, rowsOf.
  set (rows := match Backend.results r with Some l => l | None => [] end).
  set (art := shouldShowArtifact q rows).
  destruct (0 <? length rows); destruct (classifyQuery q);
    destruct (length rows <=? 10); destruct art; cbn -[generateSuggestions titleOf trim];
    (split; [intros H; try discriminate H; eexists; repeat split; reflexivity|]);
    (split; [intros H; try discriminate H; repeat split; reflexivity | reflexivity]).
Qed.

Lemma sendMessage_rejected_fields (errorText : jsstring) (s : State) :
  exists m,
    messages (sendMessage_rejected errorText s) = messages s ++ [m] /\
    m = mkMessage (now s + 1)%Z bot (js "Sorry, I encountered an error: " ++ errorText)
                  (now s) true None (Some false) (Some errorSuggestions) /\
    showArtifact (sendMessage_rejected errorText s) = showArtifact s /\
    sidebarTyping (sendMessage_rejected errorText s) = sidebarTyping s /\
    table (sendMessage_rejected errorText s) = table s.
Proof. eexists. repeat split; reflexivity. Qed.

(** ** The table fits the payload *)

Lemma renderTable_ok (s : State) :
  (forall d, sidebarData s = Some d -> Sidebar.data d <> []) ->
  tableOk (sidebarData s) (showArtifact s) (renderTable s).
Proof.
  intros Hd. unfold renderTable.
  destruct (sidebarData s) as [d|]; [|left; reflexivity].
  destruct (showArtifact s); [right; reflexivity|].
  specialize (Hd d eq_refl).
  destruct (Sidebar.data d) as [|row rest] eqn:E; [congruence|].
  cbn [isNil AnimatedTable.mount tableOk]. exists d. rewrite E.
  cbn [AnimatedTable.maxRows AnimatedTable.visibleRows AnimatedTable.currentRow
       AnimatedTable.isComplete AnimatedTable.interval].
  repeat split; try reflexivity; try discriminate; lia.
Qed.

Lemma tick_tableOk (payload : option Sidebar.Data) (artifact : bool)
    (a : AnimatedTable.t) (d : Z) :
  tableOk payload artifact (Some a) -> AnimatedTable.interval a = Some d ->
  tableOk payload artifact (Some (fst (AnimatedTable.tick a))).
Proof.
  intros (p & Hp & Ha & Hmax & Hle & Hcur & Hiff & Hdone) Hi.
  assert (Hc : AnimatedTable.isComplete a = false).
  { destruct (AnimatedTable.isComplete a); [|reflexivity].
    destruct Hiff as [H _]. rewrite (H eq_refl) in Hi. discriminate. }
  unfold AnimatedTable.tick. rewrite Hi.
  destruct (AnimatedTable.currentRow a <? AnimatedTable.maxRows a) eqn:E; cbn [fst tableOk].
  - apply Nat.ltb_lt in E. exists p.
    cbn [AnimatedTable.maxRows AnimatedTable.visibleRows AnimatedTable.currentRow
         AnimatedTable.isComplete AnimatedTable.interval].
    rewrite Hc. repeat split; try assumption; try discriminate; lia.
  - apply Nat.ltb_ge in E. exists p.
    cbn [AnimatedTable.maxRows AnimatedTable.visibleRows AnimatedTable.currentRow
         AnimatedTable.isComplete AnimatedTable.interval].
    repeat split; try assumption; try reflexivity; lia.
Qed.

(** ** Preservation *)

Lemma panelInv_frame (s s' : State) :
  isLoading s' = isLoading s -> request s' = request s ->
  sidebarData s' = sidebarData s -> showArtifact s' = showArtifact s ->
  timeouts s' = timeouts s -> autoCloseTimer s' = autoCloseTimer s ->
  sidebarTyping s' = sidebarTyping s ->
  table s' = table s \/ table s' = renderTable s' ->
  panelInv s -> panelInv s'.
Proof.
  intros E1 E2 E3 E4 E5 E6 E7 E8 (HA & HB & HC & HD & HE & HF & HG).
  unfold panelInv. rewrite E1, E2, E3, E4, E5, E6, E7.
  repeat (split; [assumption|]).
  destruct E8 as [E8 | E8]; rewrite E8; [exact HG|].
  rewrite <- E3, <- E4. apply renderTable_ok. rewrite E3. intros d Hd. apply (HC d Hd).
Qed.

Lemma panelInv_closed (s' : State) :
  isLoading s' = match request s' with Some _ => true | None => false end ->
  sidebarData s' = None -> showArtifact s' = false -> timeouts s' = [] ->
  sidebarTyping s' = false -> table s' = None ->
  panelInv s'.
Proof.
  intros E1 E2 E3 E4 E5 E6. unfold panelInv. rewrite E2, E3, E4, E5, E6.
  split; [exact E1|]. split; [auto|]. split; [discriminate|]. split; [discriminate|].
  split; [left; split; [reflexivity | discriminate]|]. split; [reflexivity|].
  left. reflexivity.
Qed.

(** The one pending timer, when there is one. *)
Lemma panelInv_clear (s : State) :
  panelInv s ->
  match autoCloseTimer s with
  | Some timer => List.filter (fun t => negb (handle t =? timer)) (timeouts s)
  | None => timeouts s
  end = [].
Proof.
  intros (_ & _ & _ & _ & [[H _] | (timer & t & d & H & Ha & _)] & _).
  - rewrite H. destruct (autoCloseTimer s); reflexivity.
  - rewrite Ha, H. apply filter_single_handle.
Qed.

Lemma panelInv_init (ls : gmap string Store.Item) (t : Z) : panelInv (init ls t).
Proof. apply panelInv_closed; init_cases. Qed.

Lemma exec_panelInv (s s' : State) (l : Label) :
  panelInv s -> exec s l = Some s' -> panelInv s'.
Proof.
  intros Hinv Hex.
  pose proof Hinv as (HA & HB & HC & HD & HE & HF & HG).
  destruct l as [pos| |timer|t e].
  - apply exec_TextTick in Hex as (c & m & d & _ & _ & _ & _ & ->).
    destruct (snd _); (apply (panelInv_frame s); [reflexivity.. | | exact Hinv]).
    + right. reflexivity.
    + left. reflexivity.
  - apply exec_RowTick in Hex as (a & d & Ha & Hd & _ & ->).
    cbn [sidebarTyping setTable setNow]. rewrite HF, andb_false_r.
    unfold panelInv. cbn [isLoading request sidebarData showArtifact timeouts
                          autoCloseTimer sidebarTyping table setTable setNow].
    repeat (split; [assumption|]).
    rewrite Ha in HG. exact (tick_tableOk _ _ a d HG Hd).
  - apply exec_Fire in Hex as (tm & Hf & _ & ->).
    destruct HE as [[H _] | (k & t & d & H & Hk & _)]; rewrite H in Hf; [discriminate|].
    cbn in Hf. destruct (k =? timer) eqn:E; [|discriminate].
    apply Nat.eqb_eq in E. subst k. injection Hf as <-. cbn [callback].
    apply panelInv_closed; cbn; try reflexivity; try assumption.
    rewrite H. apply filter_single_handle.
  - apply exec_At in Hex as [_ Hex]. destruct e; cbn in Hex.
    + destruct (sendMessage messageToSend (setNow t s)) as [s1|] eqn:E.
      * injection Hex as <-. apply sendMessage_accepts in E
          as (Hr & _ & Hd & Hart & Hty & Hl & _ & _ & _ & _ & _ & _ & Htm).
        apply panelInv_closed.
        -- rewrite commit_isLoading, commit_request, Hl, Hr. reflexivity.
        -- rewrite commit_sidebarData. exact Hd.
        -- rewrite commit_showArtifact. exact Hart.
        -- rewrite commit_timeouts, Htm. apply (panelInv_clear s Hinv).
        -- rewrite commit_sidebarTyping. exact Hty.
        -- rewrite commit_table. unfold renderTable. rewrite Hd. reflexivity.
      * injection Hex as <-. apply (panelInv_frame s); [reflexivity.. | | exact Hinv].
        left. reflexivity.
    + destruct (request s) as [q|] eqn:Hq; [|discriminate]. injection Hex as <-.
      destruct (HB ltac:(discriminate)) as (Hd0 & Hart0 & Ht0).
      destruct (sendMessage_resolved_spec q response (setNow t s))
        as (_ & Hr & Hl & _ & _ & _ & Hshown & Htm & Hat).
      destruct (sendMessage_resolved_fields q response (setNow t s)) as (Hyes & Hno & _).
      cbn [timeouts setNow autoCloseTimer nextTimer now] in Htm, Hat.
      cbn [showArtifact sidebarTyping setNow] in Hno.
      rewrite Ht0 in Htm. rewrite Hart0, HF in Hno.
      assert (Hart' : (if 0 <? length (rowsOf response) then false else false) = false)
        by (destruct (0 <? length (rowsOf response)); reflexivity).
      rewrite Hart' in Hno. clear Hart'.
      unfold panelInv.
      rewrite commit_isLoading, commit_request, commit_sidebarData, commit_showArtifact,
        commit_timeouts, commit_autoCloseTimer, commit_sidebarTyping, commit_table.
      rewrite Hr, Hl, Htm, Hat.
      destruct (showsPanel q (rowsOf response)) eqn:Hp.
      * destruct (Hyes eq_refl) as (title & Hd & Hart & Hty). clear Hyes Hno.
        assert (Hok : payloadOk (Sidebar.mkData title (rowsOf response) q (classifyQuery q)
                                   (shouldShowArtifact q (rowsOf response)))).
        { unfold payloadOk. cbn. repeat split; try assumption.
          unfold showsPanel in Hp. destruct (rowsOf response); [discriminate Hp|discriminate]. }
        rewrite Hd, Hart, Hty.
        split; [reflexivity|]. split; [congruence|].
        split; [intros d E; injection E as <-; exact Hok|].
        split; [intros E; eexists; split; [reflexivity | exact E]|].
        split; [|split; [reflexivity|]].
        -- cbn [andb]. destruct (Behavior_eqb (classifyQuery q) BriefShow) eqn:Eb.
           ++ right. eexists _, _, _. repeat split.
              cbn. destruct (classifyQuery q); try discriminate; reflexivity.
           ++ left. split; [reflexivity|]. intros d E. injection E as <-. cbn.
              intros E. rewrite E in Eb. discriminate.
        -- rewrite <- Hd, <- Hart. apply renderTable_ok.
           intros d E. rewrite Hd in E. injection E as <-. apply Hok.
      * destruct (Hno eq_refl) as (Hd & Hart & Hty). clear Hyes Hno.
        rewrite Hd, Hart, Hty. cbn [andb].
        split; [reflexivity|]. split; [congruence|].
        split; [discriminate|]. split; [discriminate|].
        split; [left; split; [reflexivity | discriminate]|].
        split; [reflexivity|].
        unfold renderTable. rewrite Hd. left. reflexivity.
    + destruct (request s) as [q|] eqn:Hq; [|discriminate]. injection Hex as <-.
      destruct (HB ltac:(discriminate)) as (Hd0 & Hart0 & Ht0).
      apply panelInv_closed; cbn; try reflexivity; try assumption.
      unfold renderTable. cbn. rewrite Hd0. reflexivity.
    + destruct (isLoading s); [discriminate|].
      destruct (Csv.jsstring_eqb _ _); injection Hex as <-;
        (apply (panelInv_frame s); [reflexivity.. | | exact Hinv]).
      * left. reflexivity.
      * right. reflexivity.
    + destruct (sidebarData s); [|discriminate]. injection Hex as <-.
      pose proof (panelInv_clear s Hinv) as Hc.
      apply panelInv_closed; unfold closeSidebar; cbn;
        destruct (autoCloseTimer s); cbn; try reflexivity; try assumption.
    + destruct (sidebarData s) as [d|] eqn:Hd; [|discriminate].
      destruct (Sidebar.showArtifact d) eqn:Hda; [|discriminate].
      injection Hex as <-.
      unfold panelInv.
      cbn [isLoading request sidebarData showArtifact timeouts autoCloseTimer
           sidebarTyping table render setTable setTypewriters setShowArtifact setNow].
      rewrite Hd.
      split; [exact HA|].
      split; [intros H; destruct (HB H) as (E & _); discriminate|].
      split; [exact HC|].
      split; [intros _; eauto|].
      split; [exact HE|]. split; [exact HF|].
      pose proof (renderTable_ok (setShowArtifact (negb (showArtifact s)) (setNow t s)))
        as Hrt.
      cbn [sidebarData showArtifact setShowArtifact setNow] in Hrt. rewrite Hd in Hrt.
      apply Hrt. intros d' E. apply (HC d' E).
Qed.

Lemma reachable_panelInv (s : State) : reachable s -> panelInv s.
Proof.
  intros (ls0 & t0 & trace & H).
  assert (G : forall trace s0, panelInv s0 -> run s0 trace = Some s -> panelInv s).
  { clear. induction trace as [|l trace IH]; intros s0 Hs; cbn.
    - intros H. injection H as <-. exact Hs.
    - destruct (exec s0 l) as [s1|] eqn:E; [|discriminate].
      apply IH. exact (exec_panelInv s0 s1 l Hs E). }
  exact (G trace _ (panelInv_init ls0 t0) H).
Qed.

(** X9. A request is awaited exactly while [isLoading] is set, and as long as
    it is awaited the panel is closed: no payload, the artifact view off, no
    timer pending and no table mounted. *)
Theorem loading_means_panel_closed (s : State) :
  reachable s ->
  (isLoading s = true <-> request s <> None) /\
  (request s <> None ->
   sidebarData s = None /\ showArtifact s = false /\ timeouts s = [] /\ table s = None).
Proof.
  intros Hr. destruct (reachable_panelInv s Hr) as (HA & HB & _ & _ & _ & _ & HG).
  split.
  - rewrite HA. destruct (request s); split; congruence.
  - intros H. destruct (HB H) as (Hd & Ha & Ht). repeat split; try assumption.
    destruct (table s) as [a|]; [|reflexivity].
    destruct HG as (d & E & _). congruence.
Qed.

Lemma loading_means_panel_closed_witness :
  sidebarData (stateAfter adminAsked) = None /\ showArtifact (stateAfter adminAsked) = false /\
  timeouts (stateAfter adminAsked) = [] /\ table (stateAfter adminAsked) = None.
Proof.
  apply (proj2 (loading_means_panel_closed (stateAfter adminAsked)
                  ltac:(exists ∅, 0%Z, adminAsked; vm_compute; reflexivity))).
  vm_compute. discriminate.
Defined.

(** X10. A call of [sendMessage] always returns.  It changes nothing when the
    text to send (the argument, or the input box when the argument is
    missing or empty) is made of white space only or when a request is
    awaited; otherwise it appends that text, untrimmed, as a user message,
    empties the input box, closes the panel and awaits the answer. *)
Theorem sendMessage_guard (s : State) (t : Z) (messageToSend : option jsstring) :
  mayHappenAt s t = true ->
  exists s', exec s (At t (Submit messageToSend)) = Some s' /\
    (whiteOnly (actualMessageOf messageToSend s) \/ isLoading s = true ->
     s' = setNow t s) /\
    (~ whiteOnly (actualMessageOf messageToSend s) -> isLoading s = false ->
     messages s' = messages s ++
       [mkMessage t user (actualMessageOf messageToSend s) t false None None None] /\
     request s' = Some (actualMessageOf messageToSend s) /\ isLoading s' = true /\
     inputMessage s' = [] /\ sidebarData s' = None /\ table s' = None).
Proof.
  intros Hg. unfold exec. rewrite Hg. cbn [handle_event].
  destruct (sendMessage messageToSend (setNow t s)) as [s1|] eqn:E.
  - exists (commit s1). split; [reflexivity|]. split.
    + intros H. exfalso.
      assert (N : sendMessage messageToSend (setNow t s) = None).
      { apply sendMessage_None. destruct H as [H | H]; [left | right; exact H].
        apply trim_empty_iff. exact H. }
      congruence.
    + intros _ _. apply sendMessage_accepts in E
        as (Hr & Hm & Hd & _ & _ & Hl & _ & Hi & _).
      rewrite commit_messages, commit_request, commit_isLoading, commit_sidebarData,
        commit_table.
      repeat split; try assumption.
      unfold renderTable. rewrite Hd. reflexivity.
  - exists (setNow t s). split; [reflexivity|]. split; [reflexivity|].
    intros Hw Hl. exfalso. apply sendMessage_None in E as [E | E].
    + apply Hw. apply trim_empty_iff. exact E.
    + cbn in E. congruence.
Qed.

Lemma sendMessage_guard_witness :
  exists s', exec (init ∅ 0) (At 5 (Submit (Some (js "   ")))) = Some s' /\
             s' = setNow 5 (init ∅ 0).
Proof.
  assert (Hg : mayHappenAt (init ∅ 0) 5 = true) by (vm_compute; reflexivity).
  destruct (sendMessage_guard (init ∅ 0) 5 (Some (js "   ")) Hg) as (s' & H1 & H2 & _).
  exists s'. split; [exact H1|]. apply H2. left. repeat constructor.
Defined.

(** X11. Whenever the sidebar has a payload, no request is awaited, the
    payload has at least one row, its behaviour is the classification of its
    query, its artifact flag is the artifact predicate of its query and rows,
    and the response had one of the reasons to show the panel; the artifact
    view is on only for a payload whose artifact flag is set. *)
Theorem payload_is_well_formed (s : State) (d : Sidebar.Data) :
  reachable s ->
  sidebarData s = Some d ->
  request s = None /\
  Sidebar.data d <> [] /\
  Sidebar.behavior d = classifyQuery (Sidebar.query d) /\
  Sidebar.showArtifact d = shouldShowArtifact (Sidebar.query d) (Sidebar.data d) /\
  showsPanel (Sidebar.query d) (Sidebar.data d) = true /\
  (showArtifact s = true -> Sidebar.showArtifact d = true).
Proof.
  intros Hr Hd. destruct (reachable_panelInv s Hr) as (_ & HB & HC & HD & _).
  destruct (HC d Hd) as (H1 & H2 & H3 & H4).
  split.
  - destruct (request s) eqn:E; [|reflexivity].
    destruct (HB ltac:(discriminate)) as (E' & _). congruence.
  - repeat split; try assumption.
    intros Ha. destruct (HD Ha) as (d' & E & H). congruence.
Qed.

Lemma payload_is_well_formed_witness :
  exists d, sidebarData (stateAfter (adminAsked ++ [At 1500 (Reply adminReply)])) = Some d /\
            Sidebar.data d <> [] /\ Sidebar.behavior d = classifyQuery (Sidebar.query d).
Proof.
  destruct (sidebarData (stateAfter (adminAsked ++ [At 1500 (Reply adminReply)])))
    as [d|] eqn:E; [|vm_compute in E; discriminate].
  exists d. split; [reflexivity|].
  destruct (payload_is_well_formed
              (stateAfter (adminAsked ++ [At 1500 (Reply adminReply)])) d
              ltac:(exists ∅, 0%Z, (adminAsked ++ [At 1500 (Reply adminReply)]);
                    vm_compute; reflexivity) E)
    as (_ & H1 & H2 & _).
  split; assumption.
Defined.



(** X13. The table is mounted exactly when the sidebar has a payload and the
    artifact view is off.  It never shows more rows than the payload has nor
    more than 50, and once it has completed it shows the first 50 rows of the
    payload, all of them when there are fewer. *)
Theorem table_never_exceeds_50 (s : State) :
  reachable s ->
  (table s = None <-> sidebarData s = None \/ showArtifact s = true) /\
  (forall a, table s = Some a ->
   exists d, sidebarData s = Some d /\
     AnimatedTable.visibleRows a <= Nat.min (length (Sidebar.data d)) 50 /\
     length (displayData (Sidebar.data d) a) = AnimatedTable.visibleRows a /\
     (AnimatedTable.isComplete a = true ->
      displayData (Sidebar.data d) a = firstn 50 (Sidebar.data d))).
Proof.
  intros Hr. destruct (reachable_panelInv s Hr) as (_ & _ & _ & _ & _ & _ & HG).
  split.
  - destruct (table s) as [a|]; cbn in HG.
    + destruct HG as (d & Hd & Ha & _). split; [discriminate|].
      intros [H | H]; congruence.
    + split; [intros _; exact HG | reflexivity].
  - intros a Ha. rewrite Ha in HG. destruct HG as (d & Hd & _ & Hmax & Hle & _ & _ & Hdone).
    exists d. split; [exact Hd|]. rewrite <- Hmax. split; [exact Hle|].
    unfold displayData. split.
    + rewrite length_firstn. lia.
    + intros Hc. rewrite (Hdone Hc), Hmax.
      destruct (Nat.le_ge_cases (length (Sidebar.data d)) 50) as [H | H].
      * rewrite Nat.min_l by exact H. rewrite !firstn_all2 by lia. reflexivity.
      * rewrite Nat.min_r by exact H. reflexivity.
Qed.

Lemma table_never_exceeds_50_witness :
  exists a, table (stateAfter (adminAsked ++ [At 1500 (Reply adminReply)] ++ adminRevealed))
              = Some a /\
            AnimatedTable.visibleRows a <= 1.
Proof.
  destruct (table (stateAfter (adminAsked ++ [At 1500 (Reply adminReply)] ++ adminRevealed)))
    as [a|] eqn:E; [|vm_compute in E; discriminate].
  exists a. split; [reflexivity|].
  destruct (proj2 (table_never_exceeds_50
              (stateAfter (adminAsked ++ [At 1500 (Reply adminReply)] ++ adminRevealed))
              ltac:(exists ∅, 0%Z,
                      (adminAsked ++ [At 1500 (Reply adminReply)] ++ adminRevealed);
                    vm_compute; reflexivity)) a E)
    as (d & Hd & Hle & _).
  vm_compute in Hd. injection Hd as <-. exact Hle.
Defined.

(** X14. What the answer to a query does to the panel.  Without rows the
    panel stays closed.  With more than 50 rows it is shown in the artifact
    view, whatever the query, and no table is mounted.  With at most 50 rows
    and no artifact keyword in the query: a no-sidebar query shows nothing,
    an auto-decide query shows the panel exactly when there are at most 10
    rows, and a show-sidebar or brief-show query shows it whenever there is a
    row. *)
Theorem reply_panel_decision
    (s s1 : State) (t : Z) (q : jsstring) (response : Backend.Response) :
  request s = Some q ->
  exec s (At t (Reply response)) = Some s1 ->
  (rowsOf response = [] -> sidebarData s1 = None /\ showArtifact s1 = false) /\
  (50 < length (rowsOf response) ->
   sidebarShown s1 = true /\ showArtifact s1 = true /\ table s1 = None) /\
  (length (rowsOf response) <= 50 -> ~ matches artifactKeywords q ->
   (classifyQuery q = NoSidebar -> sidebarShown s1 = false) /\
   (classifyQuery q = AutoDecide ->
    (sidebarShown s1 = true <-> 1 <= length (rowsOf response) <= 10)) /\
   (classifyQuery q = ShowSidebar \/ classifyQuery q = BriefShow ->
    (sidebarShown s1 = true <-> rowsOf response <> []))).
Proof.
  intros Hq Hex. apply exec_At in Hex as [_ Hex]. cbn in Hex. rewrite Hq in Hex.
  injection Hex as <-.
  destruct (sendMessage_resolved_spec q response (setNow t s))
    as (_ & _ & _ & _ & _ & _ & Hshown & _).
  destruct (sendMessage_resolved_fields q response (setNow t s)) as (Hyes & Hno & _).
  rewrite commit_sidebarShown, commit_sidebarData, commit_showArtifact, commit_table, Hshown.
  split; [|split].
  - intros Hrows.
    assert (Hp : showsPanel q (rowsOf response) = false)
      by (unfold showsPanel; rewrite Hrows; reflexivity).
    destruct (Hno Hp) as (Hd & Ha & _). rewrite Hrows in Ha. split; assumption.
  - intros Hlen.
    assert (Hart : shouldShowArtifact q (rowsOf response) = true).
    { unfold shouldShowArtifact. apply orb_true_iff. right. apply Nat.ltb_lt. exact Hlen. }
    assert (Hp : showsPanel q (rowsOf response) = true).
    { unfold showsPanel. rewrite Hart, !orb_true_r, andb_true_r.
      apply Nat.ltb_lt. lia. }
    destruct (Hyes Hp) as (title & Hd & Ha & _).
    split; [exact Hp|]. rewrite Ha, Hart. split; [reflexivity|].
    unfold renderTable. rewrite Hd, Ha, Hart. reflexivity.
  - intros Hlen Hkw.
    assert (Hart : shouldShowArtifact q (rowsOf response) = false).
    { unfold shouldShowArtifact. apply orb_false_iff. split.
      - apply matches_some_false. exact Hkw.
      - apply Nat.ltb_ge. exact Hlen. }
    unfold showsPanel. rewrite Hart, orb_false_r.
    split; [|split].
    + intros ->. cbn [Behavior_eqb orb andb]. apply andb_false_r.
    + intros ->. cbn [Behavior_eqb orb andb].
      rewrite orb_false_r, andb_true_iff, Nat.ltb_lt, Nat.leb_le. lia.
    + intros [E | E]; rewrite E; cbn [Behavior_eqb orb andb];
        rewrite andb_true_r, Nat.ltb_lt;
        destruct (rowsOf response); cbn [length]; split; intros; try lia; congruence.
Qed.

Lemma reply_panel_decision_witness :
  sidebarShown (stateAfter (exportAsked ++ [At 1500 (Reply exportReply)])) = true /\
  showArtifact (stateAfter (exportAsked ++ [At 1500 (Reply exportReply)])) = true /\
  table (stateAfter (exportAsked ++ [At 1500 (Reply exportReply)])) = None.
Proof.
  assert (Hq : request (stateAfter exportAsked) = Some (js "highest paid users"))
    by (vm_compute; reflexivity).
  assert (Hex : exec (stateAfter exportAsked) (At 1500 (Reply exportReply)) =
                Some (stateAfter (exportAsked ++ [At 1500 (Reply exportReply)])))
    by (vm_compute; reflexivity).
  apply (proj1 (proj2 (reply_panel_decision _ _ _ _ _ Hq Hex))).
  vm_compute. lia.
Defined.

Lemma jsstring_eqb_eq (a b : jsstring) : Csv.jsstring_eqb a b = true <-> a = b.
Proof.
  revert b. induction a as [|x a IH]; intros [|y b]; cbn; try (split; congruence).
  rewrite andb_true_iff, Ascii.eqb_eq, IH. split; [intros [-> ->] | intros H; injection H as -> ->]; auto.
Qed.

(** X15. While the table is mounted, a change of the text of the input box
    re-renders the page and so restarts the table: it is mounted afresh on
    the same payload, no row shown, its interval started at the time of the
    change. *)
Theorem input_change_restarts_table
    (s s' : State) (t : Z) (value : jsstring) (a : AnimatedTable.t) :
  reachable s ->
  table s = Some a ->
  value <> inputMessage s ->
  exec s (At t (InputChange value)) = Some s' ->
  exists d, sidebarData s' = Some d /\ sidebarData s = Some d /\
    table s' = Some (AnimatedTable.mount t (Sidebar.data d)) /\
    option_map AnimatedTable.visibleRows (table s') = Some 0 /\
    tableDues s' = [(t + AnimatedTable.period)%Z] /\
    tableRevealed s' = false.
Proof.
  intros Hr Ha Hv Hex.
  destruct (reachable_panelInv s Hr) as (_ & _ & HC & _ & _ & _ & HG).
  rewrite Ha in HG. destruct HG as (d & Hd & Hart & _).
  destruct (HC d Hd) as (Hrows & _).
  apply exec_At in Hex as [_ Hex]. cbn in Hex.
  destruct (isLoading s); [discriminate|].
  destruct (Csv.jsstring_eqb value (inputMessage s)) eqn:E.
  - apply jsstring_eqb_eq in E. congruence.
  - injection Hex as <-. exists d.
    assert (Ht : table (render (setInputMessage value (setNow t s))) =
                 Some (AnimatedTable.mount t (Sidebar.data d))).
    { cbn. unfold renderTable. cbn. rewrite Hd, Hart.
      destruct (Sidebar.data d); [congruence | reflexivity]. }
    unfold tableDues, tableRevealed. rewrite Ht.
    destruct (Sidebar.data d); [congruence|].
    repeat split; try reflexivity; exact Hd.
Qed.

Lemma input_change_restarts_table_witness :
  exists d s',
    exec (stateAfter (adminAsked ++ [At 1500 (Reply adminReply)] ++ adminRevealed))
         (At 2000 (InputChange (js "w"))) = Some s' /\
    sidebarData s' = Some d /\
    option_map AnimatedTable.visibleRows (table s') = Some 0.
Proof.
  assert (Hr : reachable (stateAfter (adminAsked ++ [At 1500 (Reply adminReply)]
                                      ++ adminRevealed))).
  { exists ∅, 0%Z, (adminAsked ++ [At 1500 (Reply adminReply)] ++ adminRevealed).
    vm_compute. reflexivity. }
  destruct (exec (stateAfter (adminAsked ++ [At 1500 (Reply adminReply)] ++ adminRevealed))
                 (At 2000 (InputChange (js "w")))) as [s'|] eqn:E;
    [|vm_compute in E; discriminate].
  destruct (table (stateAfter (adminAsked ++ [At 1500 (Reply adminReply)] ++ adminRevealed)))
    as [a|] eqn:Ea; [|vm_compute in Ea; discriminate].
  destruct (input_change_restarts_table _ s' 2000 (js "w") a Hr Ea
              ltac:(vm_compute; discriminate) E) as (d & H1 & _ & _ & H2 & _).
  exists d, s'. repeat split; assumption.
Defined.

(** X16. When the request fails, the assistant message appended is a
    revealing [bot] message whose text is the error text behind a fixed
    prefix, marked unsuccessful, with the three fixed suggestions; the
    request is over and the panel is closed with no timer pending. *)
Theorem failed_request_message (s s' : State) (t : Z) (errorText : jsstring) :
  reachable s ->
  exec s (At t (ReplyError errorText)) = Some s' ->
  messages s' = messages s ++
    [mkMessage (t + 1)%Z bot (js "Sorry, I encountered an error: " ++ errorText) t true
               None (Some false) (Some errorSuggestions)] /\
  length errorSuggestions = 3 /\
  isLoading s' = false /\ request s' = None /\
  sidebarData s' = None /\ showArtifact s' = false /\ timeouts s' = [] /\ table s' = None.
Proof.
  intros Hr Hex.
  destruct (reachable_panelInv s Hr) as (_ & HB & _).
  apply exec_At in Hex as [_ Hex]. cbn in Hex.
  destruct (request s) as [q|] eqn:Hq; [|discriminate]. injection Hex as <-.
  destruct (HB ltac:(discriminate)) as (Hd & Ha & Ht).
  cbn. unfold renderTable. cbn. rewrite Hd, Ha, Ht. repeat split; reflexivity.
Qed.

Lemma failed_request_message_witness :
  List.map (fun m => string_of_list_ascii (message m))
           (revealing (stateAfter adminFailed)) =
    ["Sorry, I encountered an error: Network Error"%string] /\
  sidebarData (stateAfter adminFailed) = None.
Proof.
  assert (Hr : reachable (stateAfter adminAsked))
    by (exists ∅, 0%Z, adminAsked; vm_compute; reflexivity).
  assert (Hex : exec (stateAfter adminAsked) (At 1500 (ReplyError (js "Network Error"))) =
                Some (stateAfter adminFailed)) by (vm_compute; reflexivity).
  destruct (failed_request_message _ _ _ _ Hr Hex) as (Hm & _ & _ & _ & Hd & _).
  split; [|exact Hd]. unfold revealing. rewrite Hm. vm_compute. reflexivity.
Defined.

(** * The history *)

Lemma laterOf_refl (ms : list Message) : Forall2 laterOf ms ms.
Proof. induction ms; constructor; [left; reflexivity | assumption]. Qed.

Lemma laterOf_trans (l1 l2 l3 : list Message) :
  Forall2 laterOf l1 l2 -> Forall2 laterOf l2 l3 -> Forall2 laterOf l1 l3.
Proof.
  intros H. revert l3. induction H as [|a b l1 l2 Hab _ IH]; intros l3 H23.
  - inversion H23. constructor.
  - inversion H23 as [|b' c l2' l3' Hbc Hrest]; subst. constructor; [|apply IH; exact Hrest].
    destruct Hab as [-> | ->]; destruct Hbc as [-> | ->]; [left | right | right | right];
      reflexivity.
Qed.

Lemma laterOf_map (ms : list Message) (i : Z) :
  Forall2 laterOf ms
    (List.map (fun msg => if (id msg =? i)%Z then setTyping false msg else msg) ms).
Proof.
  induction ms as [|m ms IH]; cbn; constructor; [|exact IH].
  destruct (id m =? i)%Z; [right | left]; reflexivity.
Qed.

Lemma exec_history (s s' : State) (l : Label) :
  exec s l = Some s' ->
  exists kept added, messages s' = kept ++ added /\ Forall2 laterOf (messages s) kept.
Proof.
  intros Hex.
  destruct (exec_messages s s' l Hex)
    as [(Em & _) | (_ & [(i & Em & _) | [(t & m & u & _ & Em & _) | (m & _ & Em & _)]])].
  - exists (messages s), []. rewrite app_nil_r. split; [exact Em | apply laterOf_refl].
  - eexists _, []. rewrite app_nil_r. split; [exact Em | apply laterOf_map].
  - exists (messages s), [u]. split; [exact Em | apply laterOf_refl].
  - exists (messages s), [m]. split; [exact Em | apply laterOf_refl].
Qed.



(** * Messages and their typewriters *)

Section Alignment.

Lemma aligned_final (m : Message) : isTyping m = false -> aligned m None.
Proof. intros H. unfold aligned. rewrite H. reflexivity. Qed.

Lemma aligned_typing (m : Message) (tw : option TypewriterText.t) :
  aligned m tw -> isTyping m = true ->
  type m = bot /\ message m <> [] /\
  exists c d, tw = Some c /\ TypewriterText.intervalRef c = Some d /\
              TypewriterText.currentIndex c <= length (message m) /\
              TypewriterText.displayText c =
                slice0 (message m) (TypewriterText.currentIndex c).
Proof. unfold aligned. intros H E. rewrite E in H. exact H. Qed.

(** A mounted typewriter is kept by a render, and nothing is mounted for a
    message that is not being revealed. *)
Lemma renderTypewriters_one (now : Z) (m : Message) (tw : option TypewriterText.t) :
  aligned m tw ->
  (if Role_eqb (type m) bot && isTyping m
   then Some (match tw with Some c => c | None => TypewriterText.mount now (message m) end)
   else None) = tw.
Proof.
  unfold aligned. destruct (isTyping m).
  - intros (-> & _ & c & d & -> & _). reflexivity.
  - intros ->. rewrite andb_false_r. reflexivity.
Qed.

Lemma renderTypewriters_id (now : Z) (ms : list Message)
    (tws : list (option TypewriterText.t)) :
  Forall2 aligned ms tws -> renderTypewriters now ms tws = tws.
Proof.
  induction 1 as [|m tw ms tws Hm _ IH]; [reflexivity|].
  cbn [renderTypewriters hd tl]. rewrite IH, (renderTypewriters_one now m tw Hm).
  reflexivity.
Qed.

Lemma renderTypewriters_app (now : Z) (ms : list Message)
    (tws : list (option TypewriterText.t)) (m : Message) :
  Forall2 aligned ms tws ->
  renderTypewriters now (ms ++ [m]) tws =
    tws ++ [if Role_eqb (type m) bot && isTyping m
            then Some (TypewriterText.mount now (message m))
            else None].
Proof.
  induction 1 as [|m0 tw ms tws Hm _ IH]; [reflexivity|].
  cbn [app renderTypewriters hd tl]. rewrite IH, (renderTypewriters_one now m0 tw Hm).
  reflexivity.
Qed.

Lemma renderTypewriters_final (now : Z) (ms : list Message)
    (tws : list (option TypewriterText.t)) :
  Forall (fun m => isTyping m = false) ms ->
  Forall2 aligned ms (renderTypewriters now ms tws).
Proof.
  intros H. revert tws. induction H as [|m ms Hm _ IH]; intros tws; cbn [renderTypewriters].
  - constructor.
  - rewrite Hm, andb_false_r. constructor; [apply aligned_final; exact Hm | apply IH].
Qed.

(** One message and its typewriter across a completion of the reveal of the
    messages with id [i]. *)
Lemma finalised_one (now : Z) (i : Z) (m : Message) (tw : option TypewriterText.t) :
  aligned m tw ->
  aligned (if (id m =? i)%Z then setTyping false m else m)
    (if Role_eqb (type (if (id m =? i)%Z then setTyping false m else m)) bot &&
        isTyping (if (id m =? i)%Z then setTyping false m else m)
     then Some (match tw with
                | Some c => c
                | None => TypewriterText.mount now
                            (message (if (id m =? i)%Z then setTyping false m else m))
                end)
     else None).
Proof.
  intros Hm. destruct (id m =? i)%Z.
  - cbn [isTyping setTyping]. rewrite andb_false_r. apply aligned_final. reflexivity.
  - rewrite (renderTypewriters_one now m tw Hm). exact Hm.
Qed.

Lemma finalised_aligned (now : Z) (i : Z) (ms : list Message)
    (tws : list (option TypewriterText.t)) :
  Forall2 aligned ms tws ->
  Forall2 aligned
    (List.map (fun msg => if (id msg =? i)%Z then setTyping false msg else msg) ms)
    (renderTypewriters now
       (List.map (fun msg => if (id msg =? i)%Z then setTyping false msg else msg) ms)
       tws).
Proof.
  induction 1 as [|m tw ms tws Hm _ IH]; [constructor|].
  cbn [List.map renderTypewriters hd tl].
  constructor; [apply finalised_one; exact Hm | exact IH].
Qed.

(** After the completing tick of the typewriter at [pos]: whatever the tick
    left at [pos], the render unmounts it. *)
Lemma completed_aligned (now : Z) (ms : list Message)
    (tws : list (option TypewriterText.t)) (pos : nat) (m : Message)
    (tw' : option TypewriterText.t) :
  Forall2 aligned ms tws -> ms !! pos = Some m ->
  Forall2 aligned
    (List.map (fun msg => if (id msg =? id m)%Z then setTyping false msg else msg) ms)
    (renderTypewriters now
       (List.map (fun msg => if (id msg =? id m)%Z then setTyping false msg else msg) ms)
       (<[pos := tw']> tws)).
Proof.
  intros H. revert pos. induction H as [|m0 tw ms tws Hm Hrest IH]; intros pos Hl.
  - discriminate.
  - destruct pos as [|pos]; cbn in Hl.
    + injection Hl as ->. cbn [List.map renderTypewriters hd tl list_insert].
      change (<[0 := tw']> (tw :: tws)) with (tw' :: tws). cbn [hd tl].
      rewrite Z.eqb_refl. cbn [isTyping setTyping]. rewrite andb_false_r.
      constructor; [apply aligned_final; reflexivity|].
      apply finalised_aligned. exact Hrest.
    + change (<[S pos := tw']> (tw :: tws)) with (tw :: <[pos := tw']> tws).
      cbn [List.map renderTypewriters hd tl].
      constructor; [apply finalised_one; exact Hm | apply IH; exact Hl].
Qed.

Lemma insert_aligned (ms : list Message) (tws : list (option TypewriterText.t))
    (pos : nat) (m : Message) (tw' : option TypewriterText.t) :
  Forall2 aligned ms tws -> ms !! pos = Some m -> aligned m tw' ->
  Forall2 aligned ms (<[pos := tw']> tws).
Proof.
  intros H. revert pos. induction H as [|m0 tw ms tws Hm Hrest IH]; intros pos Hl Ha.
  - discriminate.
  - destruct pos as [|pos]; cbn in *.
    + injection Hl as ->. constructor; assumption.
    + constructor; [exact Hm | apply IH; assumption].
Qed.

Lemma mount_aligned (now : Z) (m : Message) :
  type m = bot -> isTyping m = true -> message m <> [] ->
  aligned m (Some (TypewriterText.mount now (message m))).
Proof.
  intros Hb Ht Hne. unfold aligned. rewrite Ht.
  split; [exact Hb|]. split; [exact Hne|].
  unfold TypewriterText.mount. destruct (message m); [congruence|].
  eexists _, _. cbn. repeat split; try reflexivity. cbn. lia.
Qed.

Lemma tick_aligned (m : Message) (c : TypewriterText.t) :
  aligned m (Some c) -> snd (TypewriterText.tick (message m) c) = false ->
  aligned m (Some (fst (TypewriterText.tick (message m) c))).
Proof.
  unfold aligned. destruct (isTyping m); [|discriminate].
  intros (Hb & Hne & c0 & d & E & Hd & Hle & Hshow). injection E as <-.
  unfold TypewriterText.tick. rewrite Hd.
  destruct (TypewriterText.currentIndex c <? length (message m)) eqn:El; [|discriminate].
  apply Nat.ltb_lt in El. intros _. cbn [fst].
  split; [exact Hb|]. split; [exact Hne|].
  eexists _, _. cbn. repeat split; try reflexivity. cbn. lia.
Qed.

Lemma exec_aligned (s s' : State) (l : Label) :
  Forall2 aligned (messages s) (typewriters s) ->
  exec s l = Some s' ->
  Forall2 aligned (messages s') (typewriters s').
Proof.
  intros Hal Hex. destruct l as [pos| |timer|t e].
  - apply exec_TextTick in Hex as (c & m & d & Hc & Hm & Hd & _ & ->).
    assert (Hmc : aligned m (Some c)) by exact (Forall2_lookup_lr _ _ _ _ _ _ Hal Hm Hc).
    destruct (snd (TypewriterText.tick (message m) c)) eqn:Es.
    + rewrite commit_messages, commit_typewriters.
      cbn [messages typewriters now handleTypingComplete capturedSidebarData
           setMessages setTypingMessageId setTypewriters setNow].
      apply completed_aligned; assumption.
    + cbn [messages typewriters setTypewriters setNow].
      apply (insert_aligned _ _ pos m); [assumption.. |].
      apply tick_aligned; assumption.
  - apply exec_RowTick in Hex as (a & d & _ & _ & _ & ->).
    destruct (_ && _); cbn; [rewrite renderTypewriters_id by exact Hal|]; exact Hal.
  - apply exec_Fire in Hex as (tm & _ & _ & ->).
    destruct (callback tm); cbn; rewrite renderTypewriters_id by exact Hal; exact Hal.
  - apply exec_At in Hex as [_ Hex]. destruct e; cbn in Hex.
    + destruct (sendMessage messageToSend (setNow t s)) as [s1|] eqn:E.
      * injection Hex as <-. apply sendMessage_accepts in E
          as (_ & Hm & _ & _ & _ & _ & _ & _ & _ & _ & Htw & _).
        rewrite commit_messages, commit_typewriters, Hm, Htw.
        cbn [messages typewriters setNow].
        rewrite (renderTypewriters_app _ _ _ _ Hal). cbn [type isTyping Role_eqb andb].
        apply Forall2_app; [exact Hal|]. constructor; [|constructor].
        apply aligned_final. reflexivity.
      * injection Hex as <-. exact Hal.
    + destruct (request s) as [q|] eqn:Hq; [|discriminate]. injection Hex as <-.
      destruct (sendMessage_resolved_spec q response (setNow t s))
        as ((m & Hm & Hb & Hty & Htext) & _ & _ & _ & _ & Htw & _).
      rewrite commit_messages, commit_typewriters, Hm, Htw.
      cbn [messages typewriters setNow].
      rewrite (renderTypewriters_app _ _ _ _ Hal), Hb, Hty. cbn [Role_eqb andb].
      apply Forall2_app; [exact Hal|]. constructor; [|constructor].
      apply mount_aligned; try assumption. rewrite Htext.
      assert (Hf : fallbackText <> []) by (vm_compute; discriminate).
      destruct (Backend.message response) as [text|]; [|exact Hf].
      destruct text; [exact Hf|].
      cbn [isEmpty orb]. destruct (isEmpty (trim _)); [exact Hf | discriminate].
    + destruct (request s) as [q|] eqn:Hq; [|discriminate]. injection Hex as <-.
      rewrite commit_messages, commit_typewriters.
      cbn [messages typewriters now sendMessage_rejected setMessages setTypingMessageId
           setRequest setIsLoading setNow].
      rewrite (renderTypewriters_app _ _ _ _ Hal). cbn [type isTyping Role_eqb andb message].
      apply Forall2_app; [exact Hal|]. constructor; [|constructor].
      apply (mount_aligned _ (mkMessage _ _ _ _ _ _ _ _)); [reflexivity.. | discriminate].
    + destruct (isLoading s); [discriminate|].
      destruct (Csv.jsstring_eqb _ _); injection Hex as <-; cbn;
        [|rewrite renderTypewriters_id by exact Hal]; exact Hal.
    + destruct (sidebarData s); [|discriminate]. injection Hex as <-.
      unfold closeSidebar. cbn. destruct (autoCloseTimer s); cbn;
        rewrite renderTypewriters_id by exact Hal; exact Hal.
    + destruct (sidebarData s) as [d|]; [|discriminate].
      destruct (Sidebar.showArtifact d); [|discriminate].
      injection Hex as <-. cbn. rewrite renderTypewriters_id by exact Hal. exact Hal.
Qed.

Lemma init_aligned (ls : gmap string Store.Item) (t : Z) :
  Forall2 aligned (messages (init ls t)) (typewriters (init ls t)).
Proof.
  assert (E : typewriters (init ls t) =
              renderTypewriters t (Store.initialMessages ls t) []) by init_cases.
  rewrite E, init_messages. apply renderTypewriters_final. apply initialMessages_final.
Qed.

Lemma reachable_aligned (s : State) :
  reachable s -> Forall2 aligned (messages s) (typewriters s).
Proof.
  intros (ls0 & t0 & trace & H).
  assert (G : forall trace s0, Forall2 aligned (messages s0) (typewriters s0) ->
              run s0 trace = Some s -> Forall2 aligned (messages s) (typewriters s)).
  { clear. induction trace as [|l trace IH]; intros s0 Hs; cbn.
    - intros H. injection H as <-. exact Hs.
    - destruct (exec s0 l) as [s1|] eqn:E; [|discriminate].
      apply IH. exact (exec_aligned s0 s1 l Hs E). }
  exact (G trace _ (init_aligned ls0 t0) H).
Qed.

End Alignment.

(** X18. A message being revealed is a [bot] message whose text is not empty;
    its typewriter is mounted with its interval running, shows a prefix of
    the text, and can tick as soon as no other timer is due before it.  A
    message that is not being revealed has no typewriter. *)
Theorem revealing_message_is_typing (s : State) (pos : nat) (m : Message) :
  reachable s ->
  messages s !! pos = Some m ->
  (isTyping m = false -> typewriters s !! pos = Some None) /\
  (isTyping m = true ->
   type m = bot /\ message m <> [] /\
   exists c d,
     typewriters s !! pos = Some (Some c) /\
     TypewriterText.intervalRef c = Some d /\
     TypewriterText.currentIndex c <= length (message m) /\
     TypewriterText.displayText c = firstn (TypewriterText.currentIndex c) (message m) /\
     (mayHappenAt s d = true -> exists s', exec s (TextTick pos) = Some s')).
Proof.
  intros Hr Hm. pose proof (reachable_aligned s Hr) as Hal.
  destruct (Forall2_lookup_l _ _ _ _ _ Hal Hm) as (tw & Htw & Ha).
  split.
  - intros Ht. unfold aligned in Ha. rewrite Ht in Ha. subst tw. exact Htw.
  - intros Ht. destruct (aligned_typing m tw Ha Ht) as (Hb & Hne & c & d & -> & Hd & Hle & Hs).
    split; [exact Hb|]. split; [exact Hne|]. exists c, d.
    repeat split; try assumption.
    intros Hg. unfold exec. rewrite Htw, Hm, Hd, Hg.
    destruct (TypewriterText.tick (message m) c). eauto.
Qed.

Lemma revealing_message_is_typing_witness :
  exists m, messages (stateAfter usersAnswered) !! 2 = Some m /\
            type m = bot /\ message m <> [].
Proof.
  destruct (messages (stateAfter usersAnswered) !! 2) as [m|] eqn:E;
    [|vm_compute in E; discriminate].
  exists m. split; [reflexivity|].
  assert (Hr : reachable (stateAfter usersAnswered))
    by (exists ∅, 0%Z, usersAnswered; vm_compute; reflexivity).
  destruct (proj2 (revealing_message_is_typing _ 2 m Hr E)) as (H1 & H2 & _).
  - vm_compute in E. injection E as <-. reflexivity.
  - split; assumption.
Defined.

(** X19. [localStorage] never holds a message that is being revealed: in
    every state of the controller the messages key holds a list that is not
    empty, of at most 100 messages, none of them revealing, which is the end
    of the list of the complete messages of the session. *)
Theorem storage_holds_complete_messages (s : State) :
  reachable s ->
  exists kept dropped,
    storage s !! Store.MESSAGES = Some (Store.JsonMessages kept) /\
    kept <> [] /\ length kept <= 100 /\
    Forall (fun m => isTyping m = false) kept /\
    List.filter (fun m => negb (isTyping m)) (messages s) = dropped ++ kept.
Proof.
  intros Hr. destruct (reachable_saved s Hr) as [Hst (h & rest & Hms & Hh)].
  set (complete := List.filter (fun m => negb (isTyping m)) (messages s)) in *.
  assert (Hall : Forall (fun m => isTyping m = false) complete).
  { apply List.Forall_forall. intros m Hin. apply List.filter_In in Hin as [_ H].
    destruct (isTyping m); [discriminate | reflexivity]. }
  assert (Hne : complete <> []).
  { unfold complete. rewrite Hms. cbn. rewrite Hh. discriminate. }
  exists (Store.sliceLast 100 complete), (firstn (length complete - 100) complete).
  split; [exact Hst|]. split; [|split; [|split]].
  - intros E. apply (f_equal (@length Message)) in E. rewrite sliceLast_length in E.
    destruct complete; [congruence | cbn in E; lia].
  - rewrite sliceLast_length. lia.
  - apply List.Forall_forall. intros x Hin. rewrite List.Forall_forall in Hall. apply Hall.
    rewrite (sliceLast_suffix 100 complete). apply in_or_app. right. exact Hin.
  - apply sliceLast_suffix.
Qed.

Lemma storage_holds_complete_messages_witness :
  exists kept,
    storage (stateAfter usersAnswered) !! Store.MESSAGES = Some (Store.JsonMessages kept) /\
    Forall (fun m => isTyping m = false) kept.
Proof.
  assert (Hr : reachable (stateAfter usersAnswered))
    by (exists ∅, 0%Z, usersAnswered; vm_compute; reflexivity).
  destruct (storage_holds_complete_messages _ Hr) as (kept & dropped & H1 & _ & _ & H2 & _).
  exists kept. split; assumption.
Defined.
